(** * system-monitor: the alert engine and the collection tick

    A shallow embedding of [backend/app/alerts.py] (threshold
    classification, lookup-before-create deduplication, acknowledgment,
    message formatting) and of the job of [backend/app/scheduler.py]
    (the try / except / finally around one collection tick).

    Conventions.
    - A metric value is a Python [float]; it is modelled by the rational
      number it denotes (type [Q]).  Python compares a float with an
      [int] threshold exactly, so [value >= thresholds["critical"]] is
      [inject_Z critical <= value] on rationals.  NaN and infinities are
      not readings of a percentage and are excluded by the type.
    - [datetime.now()] is an input: every call of [check_metric] receives
      the instant [now] it would read.
    - The [alerts] table is the list of its rows in rowid order, which
      is the order in which [.first()] sees them. *)

From Stdlib Require Import Ascii String QArith Qround DecimalString.
From stdpp Require Import base decidable option list strings sorting.

Local Open Scope string_scope.
Local Open Scope Z_scope.
Local Open Scope list_scope.

(** ** Data model *)

(** An instant, as [datetime.now()] returns it (microseconds since the
    epoch; only stored, never compared by the alert engine). *)
Definition Time := Z.

(** The two values the [severity] column ever receives. *)
Inductive Severity := Warning | Critical.

Definition severity_str (s : Severity) : string :=
  match s with
  | Warning => "warning"
  | Critical => "critical"
  end.

#[global] Instance Severity_eq_dec : EqDecision Severity.
Proof. solve_decision. Defined.

(** A row of the [alerts] table ([models.Alert]). *)
Record Alert := mkAlert {
  id : Z;
  timestamp : Time;
  metric_type : string;
  metric_value : Q;
  threshold_value : Z;
  severity : Severity;
  message : string;
  acknowledged : bool
}.

(** One entry of [THRESHOLDS]: a dict with the keys ["warning"] and
    ["critical"]. *)
Record Thresholds := mkThresholds {
  warning : Z;
  critical : Z
}.

(** The keys of [THRESHOLDS]. *)
Inductive MetricKind := cpu | memory | disk | battery.

Definition kind_str (k : MetricKind) : string :=
  match k with
  | cpu => "cpu"
  | memory => "memory"
  | disk => "disk"
  | battery => "battery"
  end.

Definition THRESHOLDS (k : MetricKind) : Thresholds :=
  match k with
  | cpu => {| warning := 70; critical := 85 |}
  | memory => {| warning := 75; critical := 90 |}
  | disk => {| warning := 80; critical := 95 |}
  | battery => {| warning := 20; critical := 10 |}
  end.

(** The part of the dict of [get_all_metrics()] that the alert engine
    reads.  [battery] is [None] on a machine without one; psutil reports
    [power_plugged] as [True], [False] or [None]. *)
Record Battery := mkBattery {
  percent : Q;
  is_plugged : option bool
}.

Record Metrics := mkMetrics {
  cpu_usage_percent : Q;
  memory_usage_percent : Q;
  disk_usage_percent : Q;
  battery_reading : option Battery
}.

(** Python truthiness of [metrics["battery"]["is_plugged"]]. *)
Definition truthy (b : option bool) : bool :=
  match b with
  | Some true => true
  | _ => false
  end.

(** ** The store *)

(** The session as [alerts.py] sees it: the rows of the [alerts] table
    and the number of [db.commit()] calls made so far. *)
Record Store := mkStore {
  rows : list Alert;
  commits : nat
}.

Definition empty_store : Store := {| rows := []; commits := 0 |}.

(** The id that SQLite gives the next inserted row: one more than the
    largest rowid in the table (1 in an empty table). *)
Definition next_id (l : list Alert) : Z :=
  foldr Z.max 0 (id <$> l) + 1.

Definition db_commit (db : Store) : Store :=
  {| rows := rows db; commits := S (commits db) |}.

(** [db.add(alert)] followed by the flush that assigns the id. *)
Definition db_add (a : Alert) (db : Store) : Store :=
  {| rows := rows db ++ [a]; commits := commits db |}.

(** Assignment to the attributes of the row at position [i]. *)
Definition db_set (i : nat) (a : Alert) (db : Store) : Store :=
  {| rows := <[i := a]> (rows db); commits := commits db |}.

(** The filter of the lookup in [check_metric]:
    [metric_type == k], [severity == s], [acknowledged == False]. *)
Definition open_alert (k : string) (s : Severity) (a : Alert) : Prop :=
  metric_type a = k ∧ severity a = s ∧ acknowledged a = false.

#[global] Instance open_alert_dec k s a : Decision (open_alert k s a).
Proof. unfold open_alert. apply _. Defined.

(** ** Message formatting *)

(** How an f-string renders a float ([format(value, "")], the shortest
    repr).  It belongs to the Python runtime, so it is an interface the
    development is parametric in. *)
Class FloatFormat := format_float : Q → string.

(** How an f-string renders an [int]: the thresholds of [THRESHOLDS]
    are ints. *)
Definition format_int (z : Z) : string :=
  NilZero.string_of_int (Z.to_int z).

(** [str.upper()] on ASCII text. *)
Definition upper_ascii (c : ascii) : ascii :=
  let n := N_of_ascii c in
  if ((97 <=? n) && (n <=? 122))%N then ascii_of_N (n - 32) else c.

Fixpoint upper (s : string) : string :=
  match s with
  | EmptyString => EmptyString
  | String c s' => String (upper_ascii c) (upper s')
  end.

(** [metric_names.get(metric_type, metric_type)]. *)
Definition metric_names (metric_type : string) : string :=
  if decide (metric_type = "cpu") then "CPU usage"
  else if decide (metric_type = "memory") then "Memory usage"
  else if decide (metric_type = "disk") then "Disk usage"
  else if decide (metric_type = "battery") then "Battery level"
  else metric_type.

Definition generate_alert_message `{FloatFormat}
    (metric_type : string) (value : Q) (threshold : Z) (severity : string)
    : string :=
  let metric_name := metric_names metric_type in
  let severity_emoji :=
    if decide (severity = "warning") then "⚠️" else "🔴" in
  if decide (metric_type = "battery") then
    severity_emoji +:+ " " +:+ upper severity +:+ ": " +:+ metric_name
      +:+ " is low at " +:+ format_float value +:+ "% (threshold: "
      +:+ format_int threshold +:+ "%)"
  else
    severity_emoji +:+ " " +:+ upper severity +:+ ": " +:+ metric_name
      +:+ " is high at " +:+ format_float value +:+ "% (threshold: "
      +:+ format_int threshold +:+ "%)".

(** ** check_metric *)

(** Lines 156-157 of [check_metric]: the two attributes assigned on the
    row found by the lookup. *)
Definition refresh (existing_alert : Alert) (value : Q) (now : Time) : Alert :=
  {| id := id existing_alert;
     timestamp := now;
     metric_type := metric_type existing_alert;
     metric_value := value;
     threshold_value := threshold_value existing_alert;
     severity := severity existing_alert;
     message := message existing_alert;
     acknowledged := acknowledged existing_alert |}.

(** Lines 122-140 of [check_metric]: the severity crossed and the
    threshold that goes with it, [None] when no threshold is crossed. *)
Definition crossed (value : Q) (thresholds : Thresholds)
    (higher_is_worse : bool) : option (Severity * Z) :=
  if higher_is_worse then
    if Qle_bool (inject_Z (critical thresholds)) value then
      Some (Critical, critical thresholds)
    else if Qle_bool (inject_Z (warning thresholds)) value then
      Some (Warning, warning thresholds)
    else None
  else
    if Qle_bool value (inject_Z (critical thresholds)) then
      Some (Critical, critical thresholds)
    else if Qle_bool value (inject_Z (warning thresholds)) then
      Some (Warning, warning thresholds)
    else None.

(** Which [return] of [check_metric] is reached: line 144 ([NoChange]),
    line 159 ([Updated], with the id of the refreshed row) or line 180
    ([Created], with the new row). *)
Inductive AlertOutcome :=
  | NoChange
  | Updated (existing_id : Z)
  | Created (alert : Alert).

(** The value the Python function returns at that [return]. *)
Definition returned (o : AlertOutcome) : option Alert :=
  match o with
  | Created alert => Some alert
  | _ => None
  end.

(** Line 178 of [check_metric]: the line printed for the alert just
    created. *)
Definition alert_line (alert : Alert) : string :=
  "🚨 ALERT: " +:+ message alert.

(** What [check_metric] has printed when it reaches that [return]: the
    line of the new alert at line 180, nothing at lines 144 and 159. *)
Definition printed (o : AlertOutcome) : list string :=
  match o with
  | Created alert => [alert_line alert]
  | _ => []
  end.

Definition check_metric_outcome `{FloatFormat}
    (metric_type : string) (value : Q) (thresholds : Thresholds)
    (higher_is_worse : bool) (now : Time) (db : Store)
    : AlertOutcome * Store :=
  match crossed value thresholds higher_is_worse with
  | None => (NoChange, db)
  | Some (severity, threshold_crossed) =>
    match list_find (open_alert metric_type severity) (rows db) with
    | Some (i, existing_alert) =>
      (Updated (id existing_alert), db_commit (db_set i (refresh existing_alert value now) db))
    | None =>
      let message :=
        generate_alert_message metric_type value threshold_crossed
          (severity_str severity) in
      let alert :=
        {| id := next_id (rows db);
           timestamp := now;
           metric_type := metric_type;
           metric_value := value;
           threshold_value := threshold_crossed;
           severity := severity;
           message := message;
           acknowledged := false |} in
      (Created alert, db_commit (db_add alert db))
    end
  end.

Definition check_metric `{FloatFormat}
    (metric_type : string) (value : Q) (thresholds : Thresholds)
    (higher_is_worse : bool) (now : Time) (db : Store)
    : option Alert * Store :=
  let '(o, db) :=
    check_metric_outcome metric_type value thresholds higher_is_worse now db in
  (returned o, db).

(** ** check_and_create_alerts *)

(** The checks [check_and_create_alerts] makes, in order, each with the
    [return] it reached.  [now k] is the instant [datetime.now()] gives
    during the check of kind [k]. *)
Definition check_and_create_alerts_outcomes `{FloatFormat}
    (metrics : Metrics) (now : MetricKind → Time) (db : Store)
    : list (MetricKind * AlertOutcome) * Store :=
  let '(cpu_outcome, db) :=
    check_metric_outcome "cpu" (cpu_usage_percent metrics)
      (THRESHOLDS cpu) true (now cpu) db in
  let '(memory_outcome, db) :=
    check_metric_outcome "memory" (memory_usage_percent metrics)
      (THRESHOLDS memory) true (now memory) db in
  let '(disk_outcome, db) :=
    check_metric_outcome "disk" (disk_usage_percent metrics)
      (THRESHOLDS disk) true (now disk) db in
  let outcomes :=
    [(cpu, cpu_outcome); (memory, memory_outcome); (disk, disk_outcome)] in
  match battery_reading metrics with
  | Some b =>
    if negb (truthy (is_plugged b)) then
      let '(battery_outcome, db) :=
        check_metric_outcome "battery" (percent b)
          (THRESHOLDS battery) false (now battery) db in
      (outcomes ++ [(battery, battery_outcome)], db)
    else (outcomes, db)
  | None => (outcomes, db)
  end.

(** [new_alerts.append(x)] under [if x:]. *)
Definition append_if (new_alerts : list Alert) (x : option Alert) : list Alert :=
  match x with
  | Some a => new_alerts ++ [a]
  | None => new_alerts
  end.

Definition check_and_create_alerts `{FloatFormat}
    (metrics : Metrics) (now : MetricKind → Time) (db : Store)
    : list Alert * Store :=
  let new_alerts := [] in
  let cpu_usage := cpu_usage_percent metrics in
  let '(cpu_alert, db) :=
    check_metric "cpu" cpu_usage (THRESHOLDS cpu) true (now cpu) db in
  let new_alerts := append_if new_alerts cpu_alert in
  let memory_usage := memory_usage_percent metrics in
  let '(memory_alert, db) :=
    check_metric "memory" memory_usage (THRESHOLDS memory) true (now memory) db in
  let new_alerts := append_if new_alerts memory_alert in
  let disk_usage := disk_usage_percent metrics in
  let '(disk_alert, db) :=
    check_metric "disk" disk_usage (THRESHOLDS disk) true (now disk) db in
  let new_alerts := append_if new_alerts disk_alert in
  match battery_reading metrics with
  | Some b =>
    let battery_percent := percent b in
    if negb (truthy (is_plugged b)) then
      let '(battery_alert, db) :=
        check_metric "battery" battery_percent (THRESHOLDS battery) false
          (now battery) db in
      (append_if new_alerts battery_alert, db)
    else (new_alerts, db)
  | None => (new_alerts, db)
  end.

(** ** acknowledge_alert *)

Definition acknowledge (alert : Alert) : Alert :=
  {| id := id alert;
     timestamp := timestamp alert;
     metric_type := metric_type alert;
     metric_value := metric_value alert;
     threshold_value := threshold_value alert;
     severity := severity alert;
     message := message alert;
     acknowledged := true |}.

Definition acknowledge_alert (alert_id : Z) (db : Store) : bool * Store :=
  match list_find (λ a, id a = alert_id) (rows db) with
  | Some (i, alert) => (true, db_commit (db_set i (acknowledge alert) db))
  | None => (false, db)
  end.

(** ** Histories of the store *)

(** The two operations that change the [alerts] table. *)
Inductive Op :=
  | Evaluate (metrics : Metrics) (now : MetricKind → Time)
  | Acknowledge (alert_id : Z).

Definition run_op `{FloatFormat} (db : Store) (op : Op) : Store :=
  match op with
  | Evaluate metrics now => (check_and_create_alerts metrics now db).2
  | Acknowledge alert_id => (acknowledge_alert alert_id db).2
  end.

Definition run_ops `{FloatFormat} (ops : list Op) : Store :=
  foldl run_op empty_store ops.

(** The unacknowledged rows of one metric kind, and of one
    (kind, severity) pair. *)
Definition open_of_kind (k : string) (db : Store) : list Alert :=
  filter (λ a, metric_type a = k ∧ acknowledged a = false) (rows db).

Definition open_of (k : string) (s : Severity) (db : Store) : list Alert :=
  filter (open_alert k s) (rows db).

(** Feeding a sequence of readings of one kind to [check_metric_outcome]:
    the outcomes in order and the final store. *)
Fixpoint feed `{FloatFormat} (metric_type : string) (thresholds : Thresholds)
    (higher_is_worse : bool) (samples : list (Q * Time)) (db : Store)
    : list AlertOutcome * Store :=
  match samples with
  | [] => ([], db)
  | (value, now) :: rest =>
    let '(o, db) :=
      check_metric_outcome metric_type value thresholds higher_is_worse now db in
    let '(os, db) := feed metric_type thresholds higher_is_worse rest db in
    (o :: os, db)
  end.

(** ** The collection job of scheduler.py *)

(** An instance of [Exception], identified with its [str()]. *)
Definition Exn := string.

Inductive Result (A : Type) :=
  | Returned (a : A)
  | Raised (e : Exn).
Arguments Returned {A} a.
Arguments Raised {A} e.

(** The calls the job makes on its session object. *)
Inductive SessionCall :=
  | CallAdd (snapshot : Metrics)
  | CallRollback
  | CallClose.

(** What one run of the job can see and change: the outside world [env]
    (operating system, database engine, wall clock), the objects added
    to the open session and not yet committed, whether the session is
    closed, the calls made on the session so far, and what was
    printed. *)
Record World (Env : Type) := mkWorld {
  env : Env;
  pending : list Metrics;
  closed : bool;
  calls : list SessionCall;
  stdout : list string
}.
Arguments mkWorld {Env} _ _ _ _ _.
Arguments env {Env} _.
Arguments pending {Env} _.
Arguments closed {Env} _.
Arguments calls {Env} _.
Arguments stdout {Env} _.

(** A statement that either completes with a value or raises. *)
Definition Proc (Env A : Type) : Type := World Env → Result A * World Env.

#[global] Instance Proc_ret {Env} : MRet (Proc Env) :=
  λ A a w, (Returned a, w).

#[global] Instance Proc_bind {Env} : MBind (Proc Env) :=
  λ A B f m w,
    match m w with
    | (Returned a, w') => f a w'
    | (Raised e, w') => (Raised e, w')
    end.

(** [try: body / except Exception as e: handler / finally: final]. *)
Definition try_except_finally {Env A}
    (body : Proc Env A) (handler : Exn → Proc Env A) (final : Proc Env unit)
    : Proc Env A :=
  λ w,
    let '(r, w) :=
      match body w with
      | (Returned a, w) => (Returned a, w)
      | (Raised e, w) => handler e w
      end in
    match final w with
    | (Returned _, w) => (r, w)
    | (Raised e, w) => (Raised e, w)
    end.

(** The collaborators of the job that can fail: the sampler
    ([get_all_metrics]), the commit of the session, the alert engine
    running on that session, and the clock of the log line. *)
Class Collaborators (Env : Type) := {
  get_all_metrics : Proc Env Metrics;
  session_commit : Proc Env unit;
  check_alerts : Metrics → Proc Env (list Alert);
  strftime_now : Proc Env string
}.

(** [SessionLocal()]: a fresh session, nothing pending. *)
Definition SessionLocal {Env} : Proc Env unit :=
  λ w, (Returned (),
        {| env := env w; pending := []; closed := false; calls := [];
           stdout := stdout w |}).

(** [db.add(snapshot)]. *)
Definition session_add {Env} (snapshot : Metrics) : Proc Env unit :=
  λ w, (Returned (),
        {| env := env w; pending := pending w ++ [snapshot];
           closed := closed w; calls := calls w ++ [CallAdd snapshot];
           stdout := stdout w |}).

(** [db.rollback()]: what is pending is discarded. *)
Definition session_rollback {Env} : Proc Env unit :=
  λ w, (Returned (),
        {| env := env w; pending := []; closed := closed w;
           calls := calls w ++ [CallRollback]; stdout := stdout w |}).

(** [db.close()]: the session is released; objects still pending are
    expunged. *)
Definition session_close {Env} : Proc Env unit :=
  λ w, (Returned (),
        {| env := env w; pending := []; closed := true;
           calls := calls w ++ [CallClose]; stdout := stdout w |}).

Definition print {Env} (line : string) : Proc Env unit :=
  λ w, (Returned (),
        {| env := env w; pending := pending w; closed := closed w;
           calls := calls w; stdout := stdout w ++ [line] |}).

(** The line printed after a successful tick. *)
Definition saved_line `{FloatFormat}
    (hms : string) (metrics : Metrics) (new_alerts : list Alert) : string :=
  let alert_info :=
    match new_alerts with
    | [] => ""
    | _ => " | " +:+ format_int (Z.of_nat (length new_alerts))
             +:+ " new alert(s)"
    end in
  "[" +:+ hms +:+ "] Saved snapshot - CPU: "
    +:+ format_float (cpu_usage_percent metrics) +:+ "%, Memory: "
    +:+ format_float (memory_usage_percent metrics) +:+ "%" +:+ alert_info.

(** The body of the [try] of [collect_and_save_metrics]. *)
Definition tick_body `{FloatFormat} `{Collaborators Env} : Proc Env unit :=
  metrics ← get_all_metrics;
  session_add metrics;;
  session_commit;;
  new_alerts ← check_alerts metrics;
  hms ← strftime_now;
  print (saved_line hms metrics new_alerts).

Definition collect_and_save_metrics `{FloatFormat} `{Collaborators Env}
    : Proc Env unit :=
  SessionLocal;;
  try_except_finally
    tick_body
    (λ e, print ("Error saving snapshot: " +:+ e);; session_rollback)
    session_close.

(** The interval trigger: the job is called once per period; what each
    call did (returned or raised) is recorded in order. *)
Fixpoint run_job `{FloatFormat} `{Collaborators Env} (ticks : nat) (w : World Env)
    : list (Result unit) * World Env :=
  match ticks with
  | O => ([], w)
  | S n =>
    let '(r, w) := collect_and_save_metrics w in
    let '(rs, w) := run_job n w in
    (r :: rs, w)
  end.

(** *** A host for examples *)

(** Renders a float with one digit after the point, as Python prints
    the percentages that psutil rounds to one decimal. *)
Definition repr_tenths : FloatFormat :=
  λ q, let n := Qfloor (q * (10 # 1) + (1 # 2))%Q in
       format_int (n / 10) +:+ "." +:+ format_int (n mod 10).

(** A scripted outside world: the readings the sampler will return or
    the errors it will raise, the database, and the clock. *)
Record Host := mkHost {
  script : list (Result Metrics);
  commit_error : option Exn;
  database : Store;
  clock : Time
}.

Definition host_sampler : Proc Host Metrics :=
  λ w,
    match script (env w) with
    | [] => (Raised "SamplerUnavailable", w)
    | r :: rest =>
      (r, {| env := {| script := rest; commit_error := commit_error (env w);
                       database := database (env w); clock := clock (env w) |};
             pending := pending w; closed := closed w; calls := calls w;
             stdout := stdout w |})
    end.

Definition host_commit : Proc Host unit :=
  λ w,
    match commit_error (env w) with
    | Some e => (Raised e, w)
    | None =>
      (Returned (),
       {| env := env w; pending := []; closed := closed w; calls := calls w;
          stdout := stdout w |})
    end.

(** The alert engine run on the host's database: the rows it returns,
    the table it leaves and, on the output, the lines its checks print
    in the order in which they are made. *)
Definition host_check_alerts `{FloatFormat} (metrics : Metrics)
    : Proc Host (list Alert) :=
  λ w,
    let outcomes :=
      (check_and_create_alerts_outcomes metrics (λ _, clock (env w))
         (database (env w))).1 in
    let '(new_alerts, db) :=
      check_and_create_alerts metrics (λ _, clock (env w)) (database (env w)) in
    (Returned new_alerts,
     {| env := {| script := script (env w); commit_error := commit_error (env w);
                  database := db; clock := clock (env w) |};
        pending := pending w; closed := closed w; calls := calls w;
        stdout := stdout w ++ (outcomes ≫= λ ko, printed ko.2) |}).

Definition host_collaborators `{FloatFormat} : Collaborators Host :=
  {| get_all_metrics := host_sampler;
     session_commit := host_commit;
     check_alerts := host_check_alerts;
     strftime_now := mret "12:00:00" |}.

(** ** Predicates of the statements *)

(** The polarity [check_and_create_alerts] passes for each kind. *)
Definition higher_is_worse (k : MetricKind) : bool :=
  match k with
  | battery => false
  | _ => true
  end.

(** The outcome [o] of a check of [k] on the store [db] is about
    severity [s]: a row created with that severity, or the refresh of
    the row that the lookup for [(k, s)] finds in [db]. *)
Definition outcome_of_severity (k : string) (db : Store) (o : AlertOutcome)
    (s : Severity) : Prop :=
  match o with
  | NoChange => False
  | Created a => severity a = s
  | Updated existing_id =>
    ∃ i a, list_find (open_alert k s) (rows db) = Some (i, a) ∧ id a = existing_id
  end.

(** A store that some history of evaluations and acknowledgments
    produces from the empty table. *)
Definition reachable `{FloatFormat} (db : Store) : Prop :=
  ∃ ops, db = run_ops ops.

(** Ids are unique and every (kind, severity) pair has at most one
    unacknowledged row. *)
Definition store_ok (db : Store) : Prop :=
  NoDup (id <$> rows db) ∧ ∀ k s, (length (open_of k s db) ≤ 1)%nat.

(** The message format as the specification words it:
    "{emoji} {SEVERITY}: {metric name} is {high|low} at {value}%
    (threshold: {threshold}%)", to be compared with
    [generate_alert_message]. *)
Definition spec_emoji (s : Severity) : string :=
  match s with
  | Warning => "⚠️"
  | Critical => "🔴"
  end.

Definition spec_severity_upper (s : Severity) : string :=
  match s with
  | Warning => "WARNING"
  | Critical => "CRITICAL"
  end.

Definition spec_metric_name (k : MetricKind) : string :=
  match k with
  | cpu => "CPU usage"
  | memory => "Memory usage"
  | disk => "Disk usage"
  | battery => "Battery level"
  end.

Definition spec_wording (k : MetricKind) : string :=
  match k with
  | battery => "low"
  | _ => "high"
  end.

Definition spec_message `{FloatFormat}
    (k : MetricKind) (value : Q) (threshold : Z) (s : Severity) : string :=
  spec_emoji s +:+ " " +:+ spec_severity_upper s +:+ ": "
    +:+ spec_metric_name k +:+ " is " +:+ spec_wording k +:+ " at "
    +:+ format_float value +:+ "% (threshold: " +:+ format_int threshold
    +:+ "%)".

(** A step of the [try] body raises [e], leaving the world [w']: the
    sampler, the persistence of the snapshot, or the alert evaluation. *)
Inductive step_raises `{Collaborators Env} (w : World Env) (e : Exn)
    : World Env → Prop :=
  | sampling_raises w1 :
      get_all_metrics w = (Raised e, w1) →
      step_raises w e w1
  | persistence_raises metrics w1 w2 :
      get_all_metrics w = (Returned metrics, w1) →
      (session_add metrics;; session_commit) w1 = (Raised e, w2) →
      step_raises w e w2
  | evaluation_raises metrics w1 w2 w3 :
      get_all_metrics w = (Returned metrics, w1) →
      (session_add metrics;; session_commit) w1 = (Returned (), w2) →
      check_alerts metrics w2 = (Raised e, w3) →
      step_raises w e w3.

(** Values for the examples: a record without battery whose memory and
    disk readings are low, a laptop on mains with a nearly empty
    battery, a clock that stands still, and the store after a first
    cpu reading of 75. *)
Definition reading (cpu_percent : Q) : Metrics :=
  mkMetrics cpu_percent (10 # 1)%Q (10 # 1)%Q None.

Definition plugged_laptop : Metrics :=
  mkMetrics (10 # 1)%Q (10 # 1)%Q (10 # 1)%Q
    (Some (mkBattery (5 # 1)%Q (Some true))).

Definition noon : MetricKind → Time := λ _, 0.

Definition store_after_75 : Store :=
  @run_ops repr_tenths [Evaluate (reading (75 # 1)%Q) noon].

Definition store_after_75_88 : Store :=
  @run_ops repr_tenths
    [Evaluate (reading (75 # 1)%Q) noon; Evaluate (reading (88 # 1)%Q) noon].

Definition failing_host : World Host :=
  mkWorld
    (mkHost [Raised "SamplerUnavailable"; Returned (reading (75 # 1)%Q)] None
       empty_store 0)
    [] true [] [].

(** ** The queries of alerts.py *)

(** [ORDER BY timestamp DESC]: every row is followed only by rows that
    are not newer.  SQL leaves the order of rows with equal timestamps
    open; the model takes the one of a merge sort. *)
Definition newer_first (a b : Alert) : Prop := timestamp b ≤ timestamp a.

#[global] Instance newer_first_dec : RelDecision newer_first.
Proof. intros a b. unfold newer_first. apply _. Defined.

Definition order_by_timestamp_desc (l : list Alert) : list Alert :=
  merge_sort newer_first l.

(** The rows [get_active_alerts] selects, in the order of its query; the
    function returns their [to_dict()] images, which carry the same
    eight fields (the timestamp as ISO text). *)
Definition get_active_alerts (db : Store) : list Alert :=
  order_by_timestamp_desc (filter (λ a, acknowledged a = false) (rows db)).

(** The range of [datetime], from [datetime.min] (0001-01-01 00:00:00)
    to [datetime.max] (9999-12-31 23:59:59.999999), in microseconds
    from 1970-01-01 00:00:00: year 1 begins 719162 days before that
    instant and year 9999 ends 2932897 days after it. *)
Definition datetime_min : Time := - 719162 * 86400000000.
Definition datetime_max : Time := 2932897 * 86400000000 - 1.

Definition is_datetime (t : Time) : Prop := datetime_min ≤ t ≤ datetime_max.

#[global] Instance is_datetime_dec (t : Time) : Decision (is_datetime t).
Proof. unfold is_datetime. apply _. Defined.

(** The exception of the datetime arithmetic. *)
Inductive ArithmeticError := OverflowError.

(** [timedelta(hours=hours)] in microseconds; the constructor raises
    [OverflowError] when the days of the normalised value, the hours
    floor-divided by 24, exceed 999999999 in magnitude. *)
Definition timedelta_hours (hours : Z) : ArithmeticError + Z :=
  if decide (- 999999999 ≤ hours / 24 ≤ 999999999)
  then inr (hours * 3600000000)
  else inl OverflowError.

(** [dt - delta] on a [datetime]: [OverflowError] when the result is no
    [datetime]. *)
Definition datetime_sub (dt : Time) (delta : Z) : ArithmeticError + Time :=
  if decide (is_datetime (dt - delta)) then inr (dt - delta)
  else inl OverflowError.

(** [get_alert_history]: the exception raised while the cutoff is
    computed, or else the rows the query selects, in its order; [now]
    is the instant [datetime.now()] gives. *)
Definition get_alert_history (hours : Z) (now : Time) (db : Store)
    : ArithmeticError + list Alert :=
  match timedelta_hours hours with
  | inl e => inl e
  | inr delta =>
    match datetime_sub now delta with
    | inl e => inl e
    | inr cutoff =>
      inr (order_by_timestamp_desc
             (filter (λ a, cutoff ≤ timestamp a) (rows db)))
    end
  end.

(** A row whose stored value crosses, for its kind, the severity and the
    threshold stored with it. *)
Definition justified (a : Alert) : Prop :=
  ∃ k : MetricKind,
    metric_type a = kind_str k ∧
    crossed (metric_value a) (THRESHOLDS k) (higher_is_worse k)
    = Some (severity a, threshold_value a).

(** Every reading that [check_and_create_alerts] checks is on the safe
    side of its warning level: cpu, memory and disk below it, the
    battery (when there is one and it is not plugged in) above it. *)
Definition quiet (metrics : Metrics) : Prop :=
  (cpu_usage_percent metrics < inject_Z (warning (THRESHOLDS cpu)))%Q ∧
  (memory_usage_percent metrics < inject_Z (warning (THRESHOLDS memory)))%Q ∧
  (disk_usage_percent metrics < inject_Z (warning (THRESHOLDS disk)))%Q ∧
  match battery_reading metrics with
  | Some b =>
    truthy (is_plugged b) = true ∨
    (inject_Z (warning (THRESHOLDS battery)) < percent b)%Q
  | None => True
  end.

(** The rows a check inserts: the row of a [Created] outcome. *)
Definition inserted (o : AlertOutcome) : list Alert :=
  match o with
  | Created a => [a]
  | _ => []
  end.

(** The id of every row is its position in the table, counted from 1. *)
Definition consecutive_ids (db : Store) : Prop :=
  ∀ i a, rows db !! i = Some a → id a = Z.of_nat i + 1.

(** ** get_db of database.py *)

(** [try: body / finally: final]. *)
Definition try_finally {Env A} (body : Proc Env A) (final : Proc Env unit)
    : Proc Env A :=
  λ w,
    let '(r, w) := body w in
    match final w with
    | (Returned _, w) => (r, w)
    | (Raised e, w) => (Raised e, w)
    end.

(** [get_db]: the generator opens a session, yields it to the endpoint
    that depends on it, and closes it in its [finally] when the endpoint
    is done, whether it returned or raised.  [endpoint] is the code that
    runs at the [yield]. *)
Definition get_db {Env A} (endpoint : Proc Env A) : Proc Env A :=
  SessionLocal;;
  try_finally endpoint session_close.

(** ** Arithmetic of collector.py *)

(** Python's [x // y], [x % y] and [int(x)] on floats, as the numbers
    they denote.  For [0 <= x < 2 ** 53] and a divisor among 60, 3600 and
    86400, the float operations are exact ([fmod] is exact, and the
    difference and the quotient that [//] forms are integers below
    [2 ** 53]), so they are the floor division and the remainder of the
    rationals. *)
Definition py_floordiv (x y : Q) : Q := inject_Z (Qfloor (x / y)).

Definition py_mod (x y : Q) : Q := (x - y * inject_Z (Qfloor (x / y)))%Q.

(** [int(x)] truncates toward zero. *)
Definition py_int (x : Q) : Z :=
  if (0 <=? Qnum x) then Qfloor x else Qceiling x.

(** The ["uptime"] entry of [get_system_info], lines 189-192 and
    212-217, as a function of [uptime_seconds]. *)
Record Uptime := mkUptime {
  uptime_days : Z;
  uptime_hours : Z;
  uptime_minutes : Z;
  uptime_total_seconds : Z
}.

Definition uptime (uptime_seconds : Q) : Uptime :=
  let days := py_int (py_floordiv uptime_seconds (inject_Z 86400)) in
  let hours :=
    py_int (py_floordiv (py_mod uptime_seconds (inject_Z 86400))
              (inject_Z 3600)) in
  let minutes :=
    py_int (py_floordiv (py_mod uptime_seconds (inject_Z 3600))
              (inject_Z 60)) in
  {| uptime_days := days;
     uptime_hours := hours;
     uptime_minutes := minutes;
     uptime_total_seconds := py_int uptime_seconds |}.

(** [round(x)] with one argument: the nearest integer, a tie going to
    the even one. *)
Definition py_round (x : Q) : Z :=
  let f := Qfloor x in
  match (x - inject_Z f ?= 1 # 2)%Q with
  | Lt => f
  | Gt => f + 1
  | Eq => if Z.even f then f else f + 1
  end.

(** What [psutil.sensors_battery()] returns when there is a battery.
    [secsleft] is a number of seconds, or one of psutil's negative
    markers (unknown, unlimited). *)
Record sbattery := mk_sbattery {
  sb_percent : Q;
  sb_secsleft : Z;
  sb_power_plugged : option bool
}.

(** The dict of [get_battery_metrics]. *)
Record BatteryMetrics := mkBatteryMetrics {
  bm_percent : Q;
  bm_is_plugged : option bool;
  bm_time_remaining_mins : option Z
}.

(** [secsleft / 60] is a quotient of floats; its distance to a tie is 0
    or at least 1/60, so rounding it gives the integer that rounding the
    exact quotient gives. *)
Definition get_battery_metrics (sensors_battery : option sbattery)
    : option BatteryMetrics :=
  match sensors_battery with
  | None => None
  | Some sb =>
    Some {| bm_percent := sb_percent sb;
            bm_is_plugged := sb_power_plugged sb;
            bm_time_remaining_mins :=
              if 0 <? sb_secsleft sb
              then Some (py_round (inject_Z (sb_secsleft sb) / inject_Z 60))
              else None |}
  end.

(** The two fields of the battery dict that the alert engine reads. *)
Definition battery_for_alerts (b : BatteryMetrics) : Battery :=
  {| percent := bm_percent b; is_plugged := bm_is_plugged b |}.

(** ** get_top_processes of collector.py *)

(** [round(x, 2)] on a float.  Like the formatting of floats it belongs
    to the Python runtime and is a parameter. *)
Class Round2 := round2 : Q → Q.

(** The [info] dict of a process that [psutil.process_iter] yields for
    the attributes asked.  psutil puts [None] for an attribute it may not
    read. *)
Record ProcInfo := mkProcInfo {
  info_pid : Z;
  info_name : option string;
  info_cpu_percent : option Q;
  info_memory_percent : option Q;
  info_status : option string;
  info_username : option string
}.

(** An entry of the list [processes]. *)
Record ProcEntry := mkProcEntry {
  pid : Z;
  name : option string;
  cpu_percent : Q;
  memory_percent : Q;
  status : option string;
  username : option string
}.

(** [x or 0] on an optional float: [None] and [0.0] both give 0. *)
Definition or_zero (x : option Q) : Q := default 0%Q x.

(** The body of the loop for a process whose [info] is read. *)
Definition proc_entry `{Round2} (pinfo : ProcInfo) : ProcEntry :=
  {| pid := info_pid pinfo;
     name := info_name pinfo;
     cpu_percent := or_zero (info_cpu_percent pinfo);
     memory_percent := round2 (or_zero (info_memory_percent pinfo));
     status := info_status pinfo;
     username := info_username pinfo |}.

(** [sorted(l, key=..., reverse=True)]: descending, and stable, so
    entries with equal keys keep the order they had in [l].  Inserting
    from the right, an entry goes behind the entries whose key is
    strictly larger and in front of all others. *)
Fixpoint insert_desc {A} (key : A → Q) (x : A) (l : list A) : list A :=
  match l with
  | [] => [x]
  | y :: l' =>
    if Qle_bool (key y) (key x) then x :: y :: l' else y :: insert_desc key x l'
  end.

Definition sorted_desc {A} (key : A → Q) (l : list A) : list A :=
  foldr (insert_desc key) [] l.

(** The order of a list sorted that way: no smaller key comes first. *)
Definition key_desc {A} (key : A → Q) (a b : A) : Prop :=
  (key b <= key a)%Q.

(** Equality of the numbers two floats denote. *)
#[global] Instance Qeq_decision (x y : Q) : Decision (x == y)%Q :=
  Qeq_dec x y.

(** The slice [l[:limit]]: a negative [limit] counts from the end. *)
Definition slice_to {A} (limit : Z) (l : list A) : list A :=
  if 0 <=? limit then take (Z.to_nat limit) l
  else take (length l - Z.to_nat (- limit)) l.

(** The dict of [get_top_processes]. *)
Record TopProcesses := mkTopProcesses {
  total_count : nat;
  top_by_cpu : list ProcEntry;
  top_by_memory : list ProcEntry
}.

(** [procs] is what the iteration meets: [Some pinfo] for a process whose
    [info] is read, [None] for one where reading it raises
    [NoSuchProcess] or [AccessDenied], which the loop skips. *)
Definition get_top_processes `{Round2} (limit : Z)
    (procs : list (option ProcInfo)) : TopProcesses :=
  let processes := proc_entry <$> omap (λ p, p) procs in
  let top_by_cpu := slice_to limit (sorted_desc cpu_percent processes) in
  let top_by_memory := slice_to limit (sorted_desc memory_percent processes) in
  {| total_count := length processes;
     top_by_cpu := top_by_cpu;
     top_by_memory := top_by_memory |}.

(** More values for the examples: the store after the readings 75 and 88
    with the first alert acknowledged, a laptop on battery whose power
    state the sensor cannot tell, and three processes, one of which
    cannot be read. *)
Definition store_first_acknowledged : Store :=
  (acknowledge_alert 1 store_after_75_88).2.

Definition sensed_low : sbattery := mk_sbattery (5 # 1)%Q 90 None.

Definition laptop_on_battery : Metrics :=
  mkMetrics (10 # 1)%Q (10 # 1)%Q (10 # 1)%Q
    (Some (mkBattery (5 # 1)%Q None)).


Definition three_processes : list (option ProcInfo) :=
  [Some (mkProcInfo 1 (Some "init") (Some (1 # 2)%Q) (Some (3 # 1)%Q)
           (Some "sleeping") (Some "root"));
   None;
   Some (mkProcInfo 7 (Some "python") (Some (40 # 1)%Q) (Some (1 # 1)%Q)
           (Some "running") None);
   Some (mkProcInfo 9 None None None None None)].

(** * Properties *)

(** ** Comparisons of readings with thresholds *)

Lemma Qle_bool_true (x y : Q) : Qle_bool x y = true ↔ (x <= y)%Q.
Proof. apply Qle_bool_iff. Qed.

Lemma Qle_bool_false (x y : Q) : Qle_bool x y = false ↔ (y < x)%Q.
Proof.
  rewrite <- not_true_iff_false, Qle_bool_iff.
  split; [apply Qnot_le_lt | apply Qlt_not_le].
Qed.

Lemma crossed_high_none v th :
  (v < inject_Z (warning th))%Q → (warning th ≤ critical th) →
  crossed v th true = None.
Proof.
  intros Hv Hwc. unfold crossed.
  assert (Hc : (v < inject_Z (critical th))%Q).
  { eapply Qlt_le_trans; [exact Hv|]. by rewrite <- Zle_Qle. }
  apply Qle_bool_false in Hv, Hc. by rewrite Hc, Hv.
Qed.

Lemma crossed_high_warning v th :
  (inject_Z (warning th) <= v)%Q → (v < inject_Z (critical th))%Q →
  crossed v th true = Some (Warning, warning th).
Proof.
  intros Hw Hc. unfold crossed.
  apply Qle_bool_true in Hw. apply Qle_bool_false in Hc. by rewrite Hc, Hw.
Qed.

Lemma crossed_high_critical v th :
  (inject_Z (critical th) <= v)%Q →
  crossed v th true = Some (Critical, critical th).
Proof. intros Hc. unfold crossed. apply Qle_bool_true in Hc. by rewrite Hc. Qed.

Lemma crossed_low_none v th :
  (inject_Z (warning th) < v)%Q → (critical th ≤ warning th) →
  crossed v th false = None.
Proof.
  intros Hv Hwc. unfold crossed.
  assert (Hc : (inject_Z (critical th) < v)%Q).
  { eapply Qle_lt_trans; [|exact Hv]. by rewrite <- Zle_Qle. }
  apply Qle_bool_false in Hv, Hc. by rewrite Hc, Hv.
Qed.

Lemma crossed_low_warning v th :
  (v <= inject_Z (warning th))%Q → (inject_Z (critical th) < v)%Q →
  crossed v th false = Some (Warning, warning th).
Proof.
  intros Hw Hc. unfold crossed.
  apply Qle_bool_true in Hw. apply Qle_bool_false in Hc. by rewrite Hc, Hw.
Qed.

Lemma crossed_low_critical v th :
  (v <= inject_Z (critical th))%Q →
  crossed v th false = Some (Critical, critical th).
Proof. intros Hc. unfold crossed. apply Qle_bool_true in Hc. by rewrite Hc. Qed.

(** The threshold returned with a severity is that severity's entry. *)
Lemma crossed_threshold v th hiw s thr :
  crossed v th hiw = Some (s, thr) →
  thr = match s with Warning => warning th | Critical => critical th end.
Proof.
  unfold crossed. intros Hc.
  repeat case_match; by simplify_eq.
Qed.

(** ** The three returns of check_metric *)

Section returns.
Context `{FloatFormat}.
Implicit Types (k : string) (v : Q) (th : Thresholds) (db : Store).

Lemma check_metric_none k v th hiw now db :
  crossed v th hiw = None →
  check_metric_outcome k v th hiw now db = (NoChange, db).
Proof. intros Hc. unfold check_metric_outcome. by rewrite Hc. Qed.

Lemma check_metric_found k v th hiw now db s thr i a :
  crossed v th hiw = Some (s, thr) →
  list_find (open_alert k s) (rows db) = Some (i, a) →
  check_metric_outcome k v th hiw now db
  = (Updated (id a), db_commit (db_set i (refresh a v now) db)).
Proof. intros Hc Hf. unfold check_metric_outcome. by rewrite Hc, Hf. Qed.

Lemma check_metric_fresh k v th hiw now db s thr :
  crossed v th hiw = Some (s, thr) →
  list_find (open_alert k s) (rows db) = None →
  check_metric_outcome k v th hiw now db
  = (Created (mkAlert (next_id (rows db)) now k v thr s
               (generate_alert_message k v thr (severity_str s)) false),
     db_commit (db_add
       (mkAlert (next_id (rows db)) now k v thr s
          (generate_alert_message k v thr (severity_str s)) false) db)).
Proof. intros Hc Hf. unfold check_metric_outcome. by rewrite Hc, Hf. Qed.

End returns.

(** ** Lookup of the first matching row *)

Section first_match.
Context {A : Type} (P : A → Prop) `{!∀ x, Decision (P x)}.

Lemma list_find_filter_nil (l : list A) :
  list_find P l = None ↔ filter P l = [].
Proof.
  rewrite list_find_None. induction l as [|x l IH].
  - by rewrite filter_nil.
  - rewrite Forall_cons, filter_cons.
    destruct (decide (P x)); [split; [tauto|discriminate]|tauto].
Qed.

Lemma list_find_snoc_hit (l : list A) (x : A) :
  list_find P l = None → P x → list_find P (l ++ [x]) = Some (length l, x).
Proof.
  intros Hl Hx. rewrite list_find_app_r by done.
  cbn. rewrite decide_True by done. cbn. done.
Qed.

Lemma list_find_snoc_miss (l : list A) (x : A) :
  list_find P l = None → ¬ P x → list_find P (l ++ [x]) = None.
Proof.
  intros Hl Hx. apply list_find_app_None. split; [done|].
  cbn. by rewrite decide_False.
Qed.

Lemma insert_snoc (l : list A) (x y : A) :
  <[length l := y]> (l ++ [x]) = l ++ [y].
Proof.
  replace (length l) with (length l + 0)%nat by lia.
  by rewrite insert_app_r.
Qed.

(** Replacing one row changes the number of matching rows by the
    difference between the new row and the old one. *)
Lemma length_filter_insert (l : list A) (i : nat) (a b : A) :
  l !! i = Some a →
  (length (filter P (<[i := b]> l)) + (if decide (P a) then 1 else 0)
   = length (filter P l) + (if decide (P b) then 1 else 0))%nat.
Proof.
  revert i. induction l as [|x l IH]; intros [|i] Hi; simplify_eq/=.
  - rewrite !filter_cons. repeat case_decide; simpl; lia.
  - rewrite !filter_cons. specialize (IH i Hi).
    destruct (decide (P x)); simpl; lia.
Qed.

End first_match.

(** ** Deduplication *)

Section dedup.
Context `{FloatFormat}.
Implicit Types (k : string) (v : Q) (th : Thresholds) (db : Store).

Lemma open_of_nil_find k s db :
  open_of k s db = [] ↔ list_find (open_alert k s) (rows db) = None.
Proof. unfold open_of. by rewrite list_find_filter_nil. Qed.

Lemma refresh_open k s a v now :
  open_alert k s (refresh a v now) ↔ open_alert k s a.
Proof. done. Qed.

(** The store after the refresh of row [i]. *)
Lemma rows_refreshed db i a v now :
  rows (db_commit (db_set i (refresh a v now) db))
  = <[i := refresh a v now]> (rows db).
Proof. done. Qed.

(** The store after the insertion of a row. *)
Lemma rows_added db a :
  rows (db_commit (db_add a db)) = rows db ++ [a].
Proof. done. Qed.

(** C1. When the reading crosses severity [s] and an unacknowledged
    ([k], [s]) row exists, no row is added: the first such row gets the
    current value and instant and the outcome is [Updated] with its id.
    Hence, from a store without an unacknowledged ([k], [s]) row, the
    same crossing value fed twice gives [Created] then [Updated] of the
    row just created, and one row more in all. *)
Theorem dedup_contract k v th hiw s thr (now now' : Time) db :
  crossed v th hiw = Some (s, thr) →
  (open_of k s db ≠ [] →
    ∃ i a a',
      rows db !! i = Some a ∧ open_alert k s a ∧
      (check_metric_outcome k v th hiw now db).1 = Updated (id a) ∧
      length (rows (check_metric_outcome k v th hiw now db).2)
      = length (rows db) ∧
      rows (check_metric_outcome k v th hiw now db).2 !! i = Some a' ∧
      id a' = id a ∧ metric_value a' = v ∧ timestamp a' = now) ∧
  (open_of k s db = [] →
    ∃ a,
      (feed k th hiw [(v, now); (v, now')] db).1
      = [Created a; Updated (id a)] ∧
      length (rows (feed k th hiw [(v, now); (v, now')] db).2)
      = S (length (rows db)) ∧
      open_of k s (feed k th hiw [(v, now); (v, now')] db).2
      = [refresh a v now']).
Proof.
  intros Hc. split.
  - intros Hopen.
    destruct (list_find (open_alert k s) (rows db)) as [[i a]|] eqn:Hf;
      [|by apply open_of_nil_find in Hf].
    pose proof Hf as (Hi & Ha & _)%list_find_Some.
    exists i, a, (refresh a v now).
    rewrite (check_metric_found _ _ _ _ _ _ _ _ _ _ Hc Hf). simpl.
    split_and!; try done.
    + by rewrite length_insert.
    + apply list_lookup_insert_eq. by eapply lookup_lt_Some.
  - intros Hnone. apply open_of_nil_find in Hnone as Hf.
    set (a := mkAlert (next_id (rows db)) now k v thr s
                (generate_alert_message k v thr (severity_str s)) false).
    assert (Ha : open_alert k s a) by done.
    exists a. unfold feed.
    rewrite (check_metric_fresh _ _ _ _ _ _ _ _ Hc Hf). fold a.
    rewrite (check_metric_found _ _ _ _ now' (db_commit (db_add a db))
               _ _ (length (rows db)) a Hc)
      by (rewrite rows_added; by apply list_find_snoc_hit).
    cbn [fst snd]. rewrite rows_refreshed, rows_added, insert_snoc.
    split_and!; [done| |].
    + rewrite length_app. simpl. lia.
    + unfold open_of. rewrite rows_refreshed, rows_added, insert_snoc.
      rewrite filter_app. fold (open_of k s db).
      rewrite Hnone, filter_cons_True by done. done.
Qed.

(** C10. The refresh of an existing row assigns [metric_value] and
    [timestamp] and nothing else: on an [Updated] outcome one row of
    the table is replaced by a row with the same id, metric type,
    severity, threshold, acknowledged flag and message, every other row
    is as before, and no row is added.  So the message of a row created
    at [v] and refreshed at [v'] is still the message generated for [v],
    while its [metric_value] is [v']. *)
Theorem refresh_frame k v th hiw now db :
  (∀ existing_id,
    (check_metric_outcome k v th hiw now db).1 = Updated existing_id →
    ∃ i a a',
    rows db !! i = Some a ∧ id a = existing_id ∧
    rows (check_metric_outcome k v th hiw now db).2
    = <[i := a']> (rows db) ∧
    metric_value a' = v ∧ timestamp a' = now ∧
    id a' = id a ∧ metric_type a' = metric_type a ∧
    severity a' = severity a ∧ threshold_value a' = threshold_value a ∧
    acknowledged a' = acknowledged a ∧ message a' = message a) ∧
  (∀ v' now' s thr,
    open_of k s db = [] → crossed v th hiw = Some (s, thr) →
    crossed v' th hiw = Some (s, thr) →
    ∃ a,
      open_of k s (feed k th hiw [(v, now); (v', now')] db).2 = [a] ∧
      metric_value a = v' ∧
      message a = generate_alert_message k v thr (severity_str s)).
Proof.
  split.
  - intros existing_id Ho. unfold check_metric_outcome in *.
    destruct (crossed v th hiw) as [[s thr]|]; [|done].
    destruct (list_find (open_alert k s) (rows db)) as [[i a]|] eqn:Hf;
      [|done].
    simpl in Ho. simplify_eq.
    apply list_find_Some in Hf as (Hi & _ & _).
    exists i, a, (refresh a v now). by split_and!.
  - intros v' now' s thr Hnone Hc Hc'. apply open_of_nil_find in Hnone as Hf.
    set (a := mkAlert (next_id (rows db)) now k v thr s
                (generate_alert_message k v thr (severity_str s)) false).
    assert (Ha : open_alert k s a) by done.
    exists (refresh a v' now'). unfold feed.
    rewrite (check_metric_fresh _ _ _ _ _ _ _ _ Hc Hf). fold a.
    rewrite (check_metric_found _ _ _ _ now' (db_commit (db_add a db))
               _ _ (length (rows db)) a Hc')
      by (rewrite rows_added; by apply list_find_snoc_hit).
    cbn [fst snd]. unfold open_of.
    rewrite rows_refreshed, rows_added, insert_snoc.
    rewrite filter_app. fold (open_of k s db).
    rewrite Hnone, filter_cons_True by done. done.
Qed.

End dedup.

(** ** The five-sample scenario *)

Section scenario.
Context `{FloatFormat}.

Lemma open_of_kind_nil_find k s db :
  open_of_kind k db = [] → list_find (open_alert k s) (rows db) = None.
Proof.
  unfold open_of_kind. rewrite <- list_find_filter_nil, !list_find_None.
  intros Hall. eapply Forall_impl; [exact Hall|].
  intros a Ha (? & ? & ?). by apply Ha.
Qed.

(** C3. From a store with no unacknowledged cpu row, the cpu readings
    60, 75, 88, 88, 65 give [NoChange], [Created] of a warning row,
    [Created] of a critical row, [Updated] of that critical row,
    [NoChange].  Afterwards the table is the old one followed by the
    warning row exactly as it was created at 75 and by the refreshed
    critical row; both are unacknowledged. *)
Theorem cpu_scenario (t1 t2 t3 t4 t5 : Time) (db : Store) :
  open_of_kind "cpu" db = [] →
  ∃ w c : Alert,
    (feed "cpu" (THRESHOLDS cpu) true
       [((60 # 1)%Q, t1); ((75 # 1)%Q, t2); ((88 # 1)%Q, t3);
        ((88 # 1)%Q, t4); ((65 # 1)%Q, t5)] db).1
    = [NoChange; Created w; Created c; Updated (id c); NoChange] ∧
    severity w = Warning ∧ metric_value w = (75 # 1)%Q ∧ timestamp w = t2 ∧
    acknowledged w = false ∧
    severity c = Critical ∧ acknowledged c = false ∧
    rows (feed "cpu" (THRESHOLDS cpu) true
            [((60 # 1)%Q, t1); ((75 # 1)%Q, t2); ((88 # 1)%Q, t3);
             ((88 # 1)%Q, t4); ((65 # 1)%Q, t5)] db).2
    = rows db ++ [w; refresh c (88 # 1)%Q t4] ∧
    open_of_kind "cpu"
      (feed "cpu" (THRESHOLDS cpu) true
         [((60 # 1)%Q, t1); ((75 # 1)%Q, t2); ((88 # 1)%Q, t3);
          ((88 # 1)%Q, t4); ((65 # 1)%Q, t5)] db).2
    = [w; refresh c (88 # 1)%Q t4].
Proof.
  intros Hnone.
  set (w := mkAlert (next_id (rows db)) t2 "cpu" (75 # 1)%Q 70 Warning
              (generate_alert_message "cpu" (75 # 1)%Q 70
                 (severity_str Warning)) false).
  set (db1 := db_commit (db_add w db)).
  set (c := mkAlert (next_id (rows db1)) t3 "cpu" (88 # 1)%Q 85 Critical
              (generate_alert_message "cpu" (88 # 1)%Q 85
                 (severity_str Critical)) false).
  set (db2 := db_commit (db_add c db1)).
  set (db3 := db_commit (db_set (length (rows db1)) (refresh c (88 # 1)%Q t4) db2)).
  assert (H1 : check_metric_outcome "cpu" (60 # 1)%Q (THRESHOLDS cpu) true t1 db
               = (NoChange, db)) by by apply check_metric_none.
  assert (H2 : check_metric_outcome "cpu" (75 # 1)%Q (THRESHOLDS cpu) true t2 db
               = (Created w, db1)).
  { apply (check_metric_fresh _ _ _ _ _ _ Warning 70); [done|].
    by apply open_of_kind_nil_find. }
  assert (H3 : check_metric_outcome "cpu" (88 # 1)%Q (THRESHOLDS cpu) true t3 db1
               = (Created c, db2)).
  { apply (check_metric_fresh _ _ _ _ _ _ Critical 85); [done|].
    unfold db1. rewrite rows_added. apply list_find_snoc_miss.
    - by apply open_of_kind_nil_find.
    - by intros (_ & ? & _). }
  assert (H4 : check_metric_outcome "cpu" (88 # 1)%Q (THRESHOLDS cpu) true t4 db2
               = (Updated (id c), db3)).
  { apply (check_metric_found _ _ _ _ _ _ Critical 85); [done|].
    unfold db2. rewrite rows_added. apply list_find_snoc_hit; [|done].
    unfold db1. rewrite rows_added. apply list_find_snoc_miss.
    - by apply open_of_kind_nil_find.
    - by intros (_ & ? & _). }
  assert (H5 : check_metric_outcome "cpu" (65 # 1)%Q (THRESHOLDS cpu) true t5 db3
               = (NoChange, db3)) by by apply check_metric_none.
  assert (Hrows : rows db3 = rows db ++ [w; refresh c (88 # 1)%Q t4]).
  { unfold db3, db2. rewrite rows_refreshed, rows_added, insert_snoc.
    unfold db1. rewrite rows_added. by rewrite <- app_assoc. }
  exists w, c. unfold feed. rewrite H1, H2, H3, H4, H5. cbn [fst snd].
  split_and!; try done.
  unfold open_of_kind in *. rewrite Hrows, filter_app, Hnone. done.
Qed.

End scenario.

(** ** What one check does to the table *)

Section effects.
Context `{FloatFormat}.
Implicit Types (k : string) (v : Q) (th : Thresholds) (db : Store).

(** The three shapes of the store after a check. *)
Lemma check_metric_cases k v th hiw now db :
  match (check_metric_outcome k v th hiw now db).1 with
  | NoChange => (check_metric_outcome k v th hiw now db).2 = db
  | Created a =>
    rows (check_metric_outcome k v th hiw now db).2 = rows db ++ [a] ∧
    commits (check_metric_outcome k v th hiw now db).2 = S (commits db) ∧
    id a = next_id (rows db) ∧ metric_type a = k ∧ acknowledged a = false ∧
    ∃ thr, crossed v th hiw = Some (severity a, thr) ∧
           open_of k (severity a) db = []
  | Updated existing_id =>
    ∃ i a,
      rows db !! i = Some a ∧ id a = existing_id ∧ metric_type a = k ∧
      acknowledged a = false ∧
      (∃ thr, crossed v th hiw = Some (severity a, thr)) ∧
      rows (check_metric_outcome k v th hiw now db).2
      = <[i := refresh a v now]> (rows db) ∧
      commits (check_metric_outcome k v th hiw now db).2 = S (commits db)
  end.
Proof.
  unfold check_metric_outcome.
  destruct (crossed v th hiw) as [[s thr]|] eqn:Hc; [|done].
  destruct (list_find (open_alert k s) (rows db)) as [[i a]|] eqn:Hf; simpl.
  - apply list_find_Some in Hf as (Hi & (? & <- & ?) & _).
    exists i, a. split_and!; eauto.
  - split_and!; try done. exists thr. split; [done|].
    by apply open_of_nil_find.
Qed.

Lemma fmap_id_refresh (l : list Alert) i a v now :
  l !! i = Some a → id <$> <[i := refresh a v now]> l = id <$> l.
Proof.
  intros Hi. rewrite list_fmap_insert. apply list_insert_id.
  by rewrite list_lookup_fmap, Hi.
Qed.

Lemma fmap_id_acknowledge (l : list Alert) i a :
  l !! i = Some a → id <$> <[i := acknowledge a]> l = id <$> l.
Proof.
  intros Hi. rewrite list_fmap_insert. apply list_insert_id.
  by rewrite list_lookup_fmap, Hi.
Qed.

(** A check of kind [k] neither adds nor changes a row of another kind. *)
Lemma filter_insert_same {A} (P : A → Prop) `{!∀ x, Decision (P x)}
    (l : list A) i a b :
  l !! i = Some a → ¬ P a → ¬ P b → filter P (<[i := b]> l) = filter P l.
Proof.
  revert i. induction l as [|x l IH]; intros [|i] Hi Ha Hb; simplify_eq/=.
  - by rewrite !filter_cons_False.
  - rewrite !filter_cons. by rewrite (IH i).
Qed.

Lemma check_metric_other_kind k k' v th hiw now db :
  k ≠ k' →
  filter (λ a, metric_type a = k')
    (rows (check_metric_outcome k v th hiw now db).2)
  = filter (λ a, metric_type a = k') (rows db).
Proof.
  intros Hk. pose proof (check_metric_cases k v th hiw now db) as Hcases.
  destruct (check_metric_outcome k v th hiw now db).1 as [|existing_id|a].
  - by rewrite Hcases.
  - destruct Hcases as (i & a & Hi & _ & Hka & _ & _ & -> & _).
    apply (filter_insert_same _ _ _ a); [done|..]; simpl; congruence.
  - destruct Hcases as (-> & _ & _ & Hka & _).
    rewrite filter_app, filter_cons_False, filter_nil, app_nil_r; [done|].
    congruence.
Qed.

End effects.

(** ** Classification *)

Section classification.
Context `{FloatFormat}.

Lemma outcome_follows_crossed k v th hiw now db s thr :
  crossed v th hiw = Some (s, thr) →
  outcome_of_severity k db (check_metric_outcome k v th hiw now db).1 s.
Proof.
  intros Hc.
  destruct (list_find (open_alert k s) (rows db)) as [[i a]|] eqn:Hf.
  - rewrite (check_metric_found _ _ _ _ _ _ _ _ _ _ Hc Hf). simpl. eauto.
  - by rewrite (check_metric_fresh _ _ _ _ _ _ _ _ Hc Hf).
Qed.

(** C2. For cpu, memory and disk a reading below the warning level gives
    [NoChange], one from the warning level up to (not including) the
    critical level gives a warning outcome, one at or above the critical
    level a critical outcome; for battery the comparisons are [<=]
    (critical at or below the critical level, else warning at or below
    the warning level, else [NoChange]); whatever the metric type, the
    thresholds and the polarity, a reading that satisfies both
    comparisons is classified critical only: the outcome is a critical
    one and the warning rows of the table are left as they were. *)
Theorem severity_classification (k : MetricKind) (v : Q) (now : Time) (db : Store) :
  (higher_is_worse k = true →
    ((v < inject_Z (warning (THRESHOLDS k)))%Q →
       (check_metric_outcome (kind_str k) v (THRESHOLDS k) true now db).1
       = NoChange) ∧
    ((inject_Z (warning (THRESHOLDS k)) <= v)%Q →
     (v < inject_Z (critical (THRESHOLDS k)))%Q →
       outcome_of_severity (kind_str k) db
         (check_metric_outcome (kind_str k) v (THRESHOLDS k) true now db).1
         Warning) ∧
    ((inject_Z (critical (THRESHOLDS k)) <= v)%Q →
       outcome_of_severity (kind_str k) db
         (check_metric_outcome (kind_str k) v (THRESHOLDS k) true now db).1
         Critical)) ∧
  (higher_is_worse k = false →
    ((v <= inject_Z (critical (THRESHOLDS k)))%Q →
       outcome_of_severity (kind_str k) db
         (check_metric_outcome (kind_str k) v (THRESHOLDS k) false now db).1
         Critical) ∧
    ((inject_Z (critical (THRESHOLDS k)) < v)%Q →
     (v <= inject_Z (warning (THRESHOLDS k)))%Q →
       outcome_of_severity (kind_str k) db
         (check_metric_outcome (kind_str k) v (THRESHOLDS k) false now db).1
         Warning) ∧
    ((inject_Z (warning (THRESHOLDS k)) < v)%Q →
       (check_metric_outcome (kind_str k) v (THRESHOLDS k) false now db).1
       = NoChange)) ∧
  (∀ (metric_type : string) (th : Thresholds) (hiw : bool),
    (if hiw
     then (inject_Z (critical th) <= v)%Q ∧ (inject_Z (warning th) <= v)%Q
     else (v <= inject_Z (critical th))%Q ∧ (v <= inject_Z (warning th))%Q) →
    crossed v th hiw = Some (Critical, critical th) ∧
    outcome_of_severity metric_type db
      (check_metric_outcome metric_type v th hiw now db).1 Critical ∧
    filter (λ a, severity a = Warning)
      (rows (check_metric_outcome metric_type v th hiw now db).2)
    = filter (λ a, severity a = Warning) (rows db)).
Proof.
  split_and!.
  - intros Hk. split_and!.
    + intros Hv. rewrite check_metric_none; [done|].
      apply crossed_high_none; [done|]. by destruct k.
    + intros Hw Hc. eapply outcome_follows_crossed.
      by apply crossed_high_warning.
    + intros Hc. eapply outcome_follows_crossed.
      by apply crossed_high_critical.
  - intros Hk. split_and!.
    + intros Hc. eapply outcome_follows_crossed.
      by apply crossed_low_critical.
    + intros Hc Hw. eapply outcome_follows_crossed.
      by apply crossed_low_warning.
    + intros Hv. rewrite check_metric_none; [done|].
      apply crossed_low_none; [done|]. by destruct k.
  - intros metric_type th hiw Hboth.
    assert (Hc : crossed v th hiw = Some (Critical, critical th)).
    { destruct hiw, Hboth as [Hc _];
        [by apply crossed_high_critical|by apply crossed_low_critical]. }
    split_and!; [done|by eapply outcome_follows_crossed|].
    pose proof (check_metric_cases metric_type v th hiw now db) as Hcases.
    destruct (check_metric_outcome metric_type v th hiw now db).1
      as [|existing_id|a].
    + by rewrite Hcases.
    + destruct Hcases as (i & a & Hi & _ & _ & _ & (thr & Hs) & -> & _).
      rewrite Hc in Hs.
      apply (filter_insert_same _ _ _ a); [done|..]; simpl; congruence.
    + destruct Hcases as (-> & _ & _ & _ & _ & thr & Hs & _).
      rewrite Hc in Hs.
      rewrite filter_app, filter_cons_False, filter_nil, app_nil_r; [done|].
      congruence.
Qed.

End classification.

(** ** The invariant of the table *)

Section invariant.
Context `{FloatFormat}.
Implicit Types (k : string) (v : Q) (th : Thresholds) (db : Store).

Lemma id_lt_next_id (l : list Alert) (a : Alert) :
  a ∈ l → id a < next_id l.
Proof.
  unfold next_id. induction l as [|x l IH]; intros Ha.
  - by apply elem_of_nil in Ha.
  - rewrite fmap_cons. cbn [foldr].
    apply elem_of_cons in Ha as [->|Ha]; [lia|].
    specialize (IH Ha). lia.
Qed.

Lemma next_id_fresh (l : list Alert) : next_id l ∉ id <$> l.
Proof.
  intros (a & Heq & Ha)%list_elem_of_fmap.
  apply id_lt_next_id in Ha. lia.
Qed.

Lemma open_count_refresh k s (l : list Alert) i a v now :
  l !! i = Some a →
  length (filter (open_alert k s) (<[i := refresh a v now]> l))
  = length (filter (open_alert k s) l).
Proof.
  intros Hi.
  pose proof (length_filter_insert (open_alert k s) l i a
                (refresh a v now) Hi) as Hlen.
  destruct (decide (open_alert k s a)) as [Ha|Ha];
    destruct (decide (open_alert k s (refresh a v now))) as [Hb|Hb];
    try lia; by rewrite refresh_open in Hb.
Qed.

Lemma open_count_acknowledge k s (l : list Alert) i a :
  l !! i = Some a →
  (length (filter (open_alert k s) (<[i := acknowledge a]> l))
     + (if decide (open_alert k s a) then 1 else 0)
   = length (filter (open_alert k s) l))%nat.
Proof.
  intros Hi.
  pose proof (length_filter_insert (open_alert k s) l i a
                (acknowledge a) Hi) as Hlen.
  rewrite (decide_False (P := open_alert k s (acknowledge a))) in Hlen;
    [lia|]. by intros (_ & _ & ?).
Qed.

Lemma store_ok_empty : store_ok empty_store.
Proof. split; [constructor|]. intros k s. simpl. lia. Qed.

Lemma store_ok_check k v th hiw now db :
  store_ok db → store_ok (check_metric_outcome k v th hiw now db).2.
Proof.
  intros [Hids Hopen].
  pose proof (check_metric_cases k v th hiw now db) as Hcases.
  destruct (check_metric_outcome k v th hiw now db) as [o db'].
  destruct o as [|existing_id|a]; simpl in *.
  - by subst.
  - destruct Hcases as (i & a & Hi & _ & _ & _ & _ & Hrows & _).
    split.
    + by rewrite Hrows, fmap_id_refresh.
    + intros k' s'. unfold open_of. rewrite Hrows, open_count_refresh by done.
      apply Hopen.
  - destruct Hcases as (Hrows & _ & Hid & Hk & Hack & thr & _ & Hnone).
    split.
    + rewrite Hrows, fmap_app. apply NoDup_app. split_and!; [done| |].
      * intros x Hx ->%list_elem_of_singleton.
        rewrite Hid in Hx. by apply next_id_fresh in Hx.
      * apply NoDup_singleton.
    + intros k' s'. unfold open_of. rewrite Hrows, filter_app, length_app.
      destruct (decide (open_alert k' s' a)) as [(Hk' & Hs' & _)|Hna].
      * subst k' s'. rewrite Hk. fold (open_of k (severity a) db).
        rewrite Hnone. simpl. apply length_filter.
      * rewrite filter_cons_False by done. simpl.
        specialize (Hopen k' s'). unfold open_of in Hopen. lia.
Qed.

Lemma store_ok_evaluate metrics nows db :
  store_ok db → store_ok (check_and_create_alerts metrics nows db).2.
Proof.
  intros Hok. unfold check_and_create_alerts, check_metric.
  pose proof (store_ok_check "cpu" (cpu_usage_percent metrics)
                (THRESHOLDS cpu) true (nows cpu) db Hok) as H1.
  destruct (check_metric_outcome "cpu" _ _ _ _ db) as [o1 db1].
  pose proof (store_ok_check "memory" (memory_usage_percent metrics)
                (THRESHOLDS memory) true (nows memory) db1 H1) as H2.
  destruct (check_metric_outcome "memory" _ _ _ _ db1) as [o2 db2].
  pose proof (store_ok_check "disk" (disk_usage_percent metrics)
                (THRESHOLDS disk) true (nows disk) db2 H2) as H3.
  destruct (check_metric_outcome "disk" _ _ _ _ db2) as [o3 db3].
  destruct (battery_reading metrics) as [b|]; [|done].
  destruct (negb (truthy (is_plugged b))); [|done].
  pose proof (store_ok_check "battery" (percent b) (THRESHOLDS battery)
                false (nows battery) db3 H3) as H4.
  by destruct (check_metric_outcome "battery" _ _ _ _ db3) as [o4 db4].
Qed.

(** The two results of [acknowledge_alert]. *)
Lemma acknowledge_alert_cases alert_id db :
  (∃ i a,
    list_find (λ a, id a = alert_id) (rows db) = Some (i, a) ∧
    acknowledge_alert alert_id db
    = (true, db_commit (db_set i (acknowledge a) db))) ∨
  (list_find (λ a, id a = alert_id) (rows db) = None ∧
   acknowledge_alert alert_id db = (false, db)).
Proof.
  unfold acknowledge_alert.
  destruct (list_find _ (rows db)) as [[i a]|]; [left|right]; eauto.
Qed.

Lemma store_ok_acknowledge alert_id db :
  store_ok db → store_ok (acknowledge_alert alert_id db).2.
Proof.
  intros [Hids Hopen].
  destruct (acknowledge_alert_cases alert_id db)
    as [(i & a & Hf & ->)|[_ ->]]; [|done].
  apply list_find_Some in Hf as (Hi & _ & _). split; simpl.
  - by rewrite fmap_id_acknowledge.
  - intros k s. unfold open_of. simpl.
    pose proof (open_count_acknowledge k s (rows db) i a Hi).
    specialize (Hopen k s). unfold open_of in Hopen. lia.
Qed.

Lemma store_ok_run_op db op : store_ok db → store_ok (run_op db op).
Proof.
  destruct op; simpl; [apply store_ok_evaluate|apply store_ok_acknowledge].
Qed.

Lemma reachable_store_ok db : reachable db → store_ok db.
Proof.
  intros [ops ->]. unfold run_ops.
  generalize store_ok_empty. generalize empty_store.
  induction ops as [|op ops IH]; intros db Hok; [done|].
  simpl. apply IH. by apply store_ok_run_op.
Qed.

(** C4, as the code has it.  In every store that a history of
    evaluations and acknowledgments produces from the empty table,
    each (metric kind, severity) pair has at most one unacknowledged
    row. *)
Theorem unique_open_per_kind_and_severity db :
  reachable db → ∀ k s, (length (open_of k s db) ≤ 1)%nat.
Proof. intros Hr. by apply reachable_store_ok in Hr as [_ ?]. Qed.

End invariant.

(** ** Writes of a check *)

Section discipline.
Context `{FloatFormat}.
Implicit Types (k : string) (v : Q) (th : Thresholds) (db : Store).

(** C7. A check that ends in [NoChange] leaves the store as it was, rows
    and commit count, and it is the only outcome that does.  [Created]
    appends exactly the returned row, a row of the kind checked that
    carries the value and the instant of the check, is unacknowledged
    and has an id no row had, and commits once.  [Updated] writes the
    row with the returned id: afterwards that row carries the value and
    the instant of the check, its other columns are as before, and the
    write is committed once.  No check, and no evaluation of a whole
    record, removes a row: the ids of the table before are a prefix of
    the ids after. *)
Theorem side_effect_discipline k v th hiw now db :
  match (check_metric_outcome k v th hiw now db).1 with
  | NoChange => (check_metric_outcome k v th hiw now db).2 = db
  | Created a =>
    rows (check_metric_outcome k v th hiw now db).2 = rows db ++ [a] ∧
    commits (check_metric_outcome k v th hiw now db).2 = S (commits db) ∧
    metric_type a = k ∧ metric_value a = v ∧ timestamp a = now ∧
    acknowledged a = false ∧ id a ∉ id <$> rows db
  | Updated existing_id =>
    ∃ i a a',
      rows db !! i = Some a ∧ id a = existing_id ∧
      rows (check_metric_outcome k v th hiw now db).2
      = <[i := a']> (rows db) ∧
      rows (check_metric_outcome k v th hiw now db).2 !! i = Some a' ∧
      metric_value a' = v ∧ timestamp a' = now ∧
      id a' = existing_id ∧ metric_type a' = metric_type a ∧
      threshold_value a' = threshold_value a ∧ severity a' = severity a ∧
      message a' = message a ∧ acknowledged a' = acknowledged a ∧
      commits (check_metric_outcome k v th hiw now db).2 = S (commits db)
  end ∧
  ((check_metric_outcome k v th hiw now db).2 = db
   ↔ (check_metric_outcome k v th hiw now db).1 = NoChange) ∧
  (id <$> rows db)
    `prefix_of` (id <$> rows (check_metric_outcome k v th hiw now db).2) ∧
  ∀ metrics nows,
    (id <$> rows db)
      `prefix_of` (id <$> rows (check_and_create_alerts metrics nows db).2).
Proof.
  assert (Hprefix : ∀ k v th hiw now db,
    (id <$> rows db)
      `prefix_of` (id <$> rows (check_metric_outcome k v th hiw now db).2)).
  { clear. intros k v th hiw now db.
    pose proof (check_metric_cases k v th hiw now db) as Hcases.
    destruct (check_metric_outcome k v th hiw now db).1 as [|existing_id|a].
    - by rewrite Hcases.
    - destruct Hcases as (i & a & Hi & _ & _ & _ & _ & -> & _).
      by rewrite fmap_id_refresh.
    - destruct Hcases as (-> & _). rewrite fmap_app. by apply prefix_app_r. }
  split_and!.
  - unfold check_metric_outcome.
    destruct (crossed v th hiw) as [[s thr]|]; [|done].
    destruct (list_find (open_alert k s) (rows db)) as [[i a]|] eqn:Hf; simpl.
    + apply list_find_Some in Hf as (Hi & _ & _).
      exists i, a, (refresh a v now). split_and!; try done.
      apply list_lookup_insert_eq. by apply lookup_lt_Some in Hi.
    + split_and!; try done. apply next_id_fresh.
  - pose proof (check_metric_cases k v th hiw now db) as Hcases.
    destruct (check_metric_outcome k v th hiw now db) as [o db'].
    simpl in *. split.
    + intros ->. destruct o as [|existing_id|a]; [done|..].
      * destruct Hcases as (i & a & _ & _ & _ & _ & _ & _ & Hc). lia.
      * destruct Hcases as (_ & Hc & _). lia.
    + by intros ->.
  - apply Hprefix.
  - intros metrics nows. rename db into db0.
    unfold check_and_create_alerts, check_metric.
    pose proof (Hprefix "cpu" (cpu_usage_percent metrics) (THRESHOLDS cpu)
                  true (nows cpu) db0) as H1.
    destruct (check_metric_outcome "cpu" _ _ _ _ db0) as [o1 db1].
    pose proof (Hprefix "memory" (memory_usage_percent metrics)
                  (THRESHOLDS memory) true (nows memory) db1) as H2.
    destruct (check_metric_outcome "memory" _ _ _ _ db1) as [o2 db2].
    pose proof (Hprefix "disk" (disk_usage_percent metrics)
                  (THRESHOLDS disk) true (nows disk) db2) as H3.
    destruct (check_metric_outcome "disk" _ _ _ _ db2) as [o3 db3].
    simpl in H1, H2, H3.
    destruct (battery_reading metrics) as [b|]; simpl.
    + destruct (negb (truthy (is_plugged b))); simpl.
      * pose proof (Hprefix "battery" (percent b) (THRESHOLDS battery)
                      false (nows battery) db3) as H4.
        destruct (check_metric_outcome "battery" _ _ _ _ db3) as [o4 db4].
        simpl in *. by repeat (etrans; [eassumption|]).
      * by repeat (etrans; [eassumption|]).
    + by repeat (etrans; [eassumption|]).
Qed.

End discipline.

(** ** Acknowledgment *)

Section acknowledgment.
Context `{FloatFormat}.
Implicit Types (k : string) (v : Q) (th : Thresholds) (db : Store).

Lemma find_by_id_unique (l : list Alert) i a :
  NoDup (id <$> l) → l !! i = Some a →
  list_find (λ a', id a' = id a) l = Some (i, a).
Proof.
  intros Hnd Hi. apply list_find_Some. split_and!; [done..|].
  intros j y Hj Hlt Heq.
  assert (i = j); [|lia].
  apply (NoDup_lookup (id <$> l) i j (id a)); [done|..];
    rewrite list_lookup_fmap; [by rewrite Hi|by rewrite Hj, <- Heq].
Qed.

(** C6. In a reachable store, once the unacknowledged ([k], [s]) row is
    acknowledged, the next reading that crosses [s] for [k] ends in
    [Created] of a new row with [acknowledged = false] and an id
    of its own; the table is then the one left by the acknowledgment
    with the new row appended, so the acknowledged row is as the
    acknowledgment left it. *)
Theorem acknowledged_then_created k v th hiw s thr now db i a :
  reachable db →
  crossed v th hiw = Some (s, thr) →
  list_find (open_alert k s) (rows db) = Some (i, a) →
  ∃ fresh,
    (acknowledge_alert (id a) db).1 = true ∧
    rows (acknowledge_alert (id a) db).2 = <[i := acknowledge a]> (rows db) ∧
    (check_metric_outcome k v th hiw now (acknowledge_alert (id a) db).2).1
    = Created fresh ∧
    acknowledged fresh = false ∧ id fresh ≠ id a ∧
    metric_value fresh = v ∧ severity fresh = s ∧
    rows (check_metric_outcome k v th hiw now
            (acknowledge_alert (id a) db).2).2
    = <[i := acknowledge a]> (rows db) ++ [fresh].
Proof.
  intros [Hids Hopen]%reachable_store_ok Hc Hf.
  pose proof Hf as (Hi & Ha & _)%list_find_Some.
  unfold acknowledge_alert. rewrite (find_by_id_unique _ i a) by done.
  cbn [fst snd].
  set (db1 := db_commit (db_set i (acknowledge a) db)).
  assert (Hrows1 : rows db1 = <[i := acknowledge a]> (rows db)) by done.
  assert (Hnone : list_find (open_alert k s) (rows db1) = None).
  { apply list_find_filter_nil, nil_length_inv. rewrite Hrows1.
    pose proof (open_count_acknowledge k s (rows db) i a Hi) as Hlen.
    rewrite decide_True in Hlen by done.
    specialize (Hopen k s). unfold open_of in Hopen. lia. }
  eexists. rewrite (check_metric_fresh _ _ _ _ _ _ _ _ Hc Hnone).
  cbn [fst snd]. rewrite rows_added, Hrows1.
  split_and!; try done.
  cbn [id]. intros Heq.
  assert (Hin : acknowledge a ∈ rows db1).
  { rewrite Hrows1. apply list_elem_of_lookup. exists i.
    apply list_lookup_insert_eq. by eapply lookup_lt_Some. }
  apply id_lt_next_id in Hin. simpl in Hin. lia.
Qed.

End acknowledgment.

(** ** A plugged-in battery *)

Section battery.
Context `{FloatFormat}.

(** The list returned by [check_and_create_alerts] holds the rows of
    the [Created] outcomes, in order, and the store is the same. *)
Lemma check_and_create_alerts_outcomes_eq metrics nows db :
  check_and_create_alerts metrics nows db
  = (omap (λ ko, returned ko.2)
       (check_and_create_alerts_outcomes metrics nows db).1,
     (check_and_create_alerts_outcomes metrics nows db).2).
Proof.
  unfold check_and_create_alerts, check_and_create_alerts_outcomes,
    check_metric.
  destruct (check_metric_outcome "cpu" _ _ _ _ db) as [o1 db1].
  destruct (check_metric_outcome "memory" _ _ _ _ db1) as [o2 db2].
  destruct (check_metric_outcome "disk" _ _ _ _ db2) as [o3 db3].
  destruct (battery_reading metrics) as [b|].
  - destruct (negb (truthy (is_plugged b))).
    + destruct (check_metric_outcome "battery" _ _ _ _ db3) as [o4 db4].
      by destruct o1, o2, o3, o4.
    + by destruct o1, o2, o3.
  - by destruct o1, o2, o3.
Qed.

(** C5. When the record has a battery reading with [is_plugged] true,
    the evaluation makes the checks of cpu, memory and disk and no
    other: there is no battery outcome, the result (new alerts and
    store) is the one for the same record without a battery, whatever
    the battery percent, and the battery rows of the table are the
    same rows as before. *)
Theorem plugged_battery_not_checked metrics nows db b :
  battery_reading metrics = Some b →
  is_plugged b = Some true →
  (check_and_create_alerts_outcomes metrics nows db).1.*1
  = [cpu; memory; disk] ∧
  check_and_create_alerts metrics nows db
  = check_and_create_alerts
      (mkMetrics (cpu_usage_percent metrics) (memory_usage_percent metrics)
         (disk_usage_percent metrics) None) nows db ∧
  filter (λ a, metric_type a = "battery")
    (rows (check_and_create_alerts metrics nows db).2)
  = filter (λ a, metric_type a = "battery") (rows db) ∧
  Forall (λ a, metric_type a ≠ "battery")
    (check_and_create_alerts metrics nows db).1.
Proof.
  intros Hb Hp.
  assert (Hsame : check_and_create_alerts metrics nows db
    = check_and_create_alerts
        (mkMetrics (cpu_usage_percent metrics) (memory_usage_percent metrics)
           (disk_usage_percent metrics) None) nows db).
  { unfold check_and_create_alerts. rewrite Hb, Hp. simpl.
    destruct (check_metric "cpu" _ _ _ _ db) as [a1 db1].
    destruct (check_metric "memory" _ _ _ _ db1) as [a2 db2].
    by destruct (check_metric "disk" _ _ _ _ db2) as [a3 db3]. }
  split_and!; [|done|..].
  - unfold check_and_create_alerts_outcomes. rewrite Hb, Hp. simpl.
    destruct (check_metric_outcome "cpu" _ _ _ _ db) as [o1 db1].
    destruct (check_metric_outcome "memory" _ _ _ _ db1) as [o2 db2].
    by destruct (check_metric_outcome "disk" _ _ _ _ db2) as [o3 db3].
  - rewrite check_and_create_alerts_outcomes_eq.
    unfold check_and_create_alerts_outcomes. rewrite Hb, Hp. simpl.
    pose proof (check_metric_other_kind "cpu" "battery"
      (cpu_usage_percent metrics) (THRESHOLDS cpu) true (nows cpu) db) as H1.
    destruct (check_metric_outcome "cpu" _ _ _ _ db) as [o1 db1].
    pose proof (check_metric_other_kind "memory" "battery"
      (memory_usage_percent metrics) (THRESHOLDS memory) true (nows memory)
      db1) as H2.
    destruct (check_metric_outcome "memory" _ _ _ _ db1) as [o2 db2].
    pose proof (check_metric_other_kind "disk" "battery"
      (disk_usage_percent metrics) (THRESHOLDS disk) true (nows disk)
      db2) as H3.
    destruct (check_metric_outcome "disk" _ _ _ _ db2) as [o3 db3].
    simpl in *. rewrite H3, H2, H1; done.
  - rewrite check_and_create_alerts_outcomes_eq.
    unfold check_and_create_alerts_outcomes. rewrite Hb, Hp. simpl.
    pose proof (check_metric_cases "cpu" (cpu_usage_percent metrics)
      (THRESHOLDS cpu) true (nows cpu) db) as H1.
    destruct (check_metric_outcome "cpu" _ _ _ _ db) as [o1 db1].
    pose proof (check_metric_cases "memory" (memory_usage_percent metrics)
      (THRESHOLDS memory) true (nows memory) db1) as H2.
    destruct (check_metric_outcome "memory" _ _ _ _ db1) as [o2 db2].
    pose proof (check_metric_cases "disk" (disk_usage_percent metrics)
      (THRESHOLDS disk) true (nows disk) db2) as H3.
    destruct (check_metric_outcome "disk" _ _ _ _ db2) as [o3 db3].
    simpl in *.
    destruct o1, o2, o3; simpl; repeat constructor;
      destruct_and?; congruence.
Qed.

End battery.

(** ** The message of a created row *)

Section message.
Context `{FloatFormat}.

Lemma generate_alert_message_spec (k : MetricKind) v thr (s : Severity) :
  generate_alert_message (kind_str k) v thr (severity_str s)
  = spec_message k v thr s.
Proof. by destruct k, s. Qed.

(** C9. The message stored with a row that a check of kind [k] creates
    is emoji, upper-cased severity, display name of the kind, "is high
    at" (cpu, memory, disk) or "is low at" (battery), the value of the
    reading, and the threshold crossed, in the format of the
    specification; it depends on the kind, the value, the threshold
    and the severity only. *)
Theorem message_format (k : MetricKind) v th hiw now db a :
  (check_metric_outcome (kind_str k) v th hiw now db).1 = Created a →
  message a = spec_message k v (threshold_value a) (severity a) ∧
  metric_value a = v ∧
  threshold_value a
  = match severity a with
    | Warning => warning th
    | Critical => critical th
    end ∧
  ∀ now' db' a',
    (check_metric_outcome (kind_str k) v th hiw now' db').1 = Created a' →
    message a' = message a.
Proof.
  assert (Hmsg : ∀ now db a,
    (check_metric_outcome (kind_str k) v th hiw now db).1 = Created a →
    ∃ s thr, crossed v th hiw = Some (s, thr) ∧ severity a = s ∧
             threshold_value a = thr ∧ metric_value a = v ∧
             message a = spec_message k v thr s).
  { clear. intros now db a. unfold check_metric_outcome.
    destruct (crossed v th hiw) as [[s thr]|]; [|done].
    destruct (list_find _ (rows db)) as [[i x]|]; [done|].
    simpl. intros [= <-]. exists s, thr. simpl.
    by rewrite generate_alert_message_spec. }
  intros (s & thr & Hc & <- & <- & Hv & Hm)%Hmsg.
  split_and!; [done..| |].
  - by apply crossed_threshold in Hc.
  - intros now' db' a' (s' & thr' & Hc' & _ & _ & _ & Hm')%Hmsg.
    rewrite Hm, Hm'. congruence.
Qed.

End message.

(** ** One tick of the collector *)

Section tick.
Context `{FloatFormat} `{Collaborators Env}.
Implicit Types (w : World Env) (e : Exn).

Lemma step_raises_body w e w' :
  step_raises w e w' → tick_body w = (Raised e, w').
Proof.
  unfold tick_body. intros [w1 H1|m w1 w2 H1 H2|m w1 w2 w3 H1 H2 H3].
  - unfold mbind at 1, Proc_bind. by rewrite H1.
  - unfold mbind at 1, Proc_bind at 1. rewrite H1.
    unfold mbind, Proc_bind, session_add in *. simpl in *.
    by destruct (session_commit _) as [[[]|?] ?]; simplify_eq.
  - unfold mbind at 1, Proc_bind at 1. rewrite H1.
    unfold mbind, Proc_bind, session_add in *. simpl in *.
    destruct (session_commit _) as [[[]|?] ?]; simplify_eq.
    by rewrite H3.
Qed.

Lemma collect_after_raise w e w1 :
  tick_body (SessionLocal w).2 = (Raised e, w1) →
  collect_and_save_metrics w
  = (Returned (),
     {| env := env w1; pending := []; closed := true;
        calls := calls w1 ++ [CallRollback; CallClose];
        stdout := stdout w1 ++ ["Error saving snapshot: " +:+ e] |}).
Proof.
  intros Hb. unfold collect_and_save_metrics, try_except_finally.
  unfold mbind at 1, Proc_bind at 1. simpl in *. rewrite Hb. simpl.
  by rewrite <- app_assoc.
Qed.

Lemma collect_returns w :
  ∃ w', collect_and_save_metrics w = (Returned (), w') ∧
        closed w' = true ∧ last (calls w') = Some CallClose.
Proof.
  unfold collect_and_save_metrics, try_except_finally.
  unfold mbind at 1, Proc_bind at 1. cbn [SessionLocal].
  destruct (tick_body _) as [[[]|e] w1]; cbn;
    eexists; (split_and!; [done..|]); cbn [calls]; apply last_snoc.
Qed.

(** C8. When the sampler, the persistence of the snapshot or the alert
    evaluation raises, the job still returns: the error line is
    printed, then [rollback] and [close] are called on the session, so
    nothing stays pending and the session is closed.  In every case the
    job returns and its last call on the session is [close]; hence each
    of any number of scheduled runs completes, whatever happened in the
    runs before. *)
Theorem tick_error_contained w :
  (∀ e w1,
    step_raises (SessionLocal w).2 e w1 →
    collect_and_save_metrics w
    = (Returned (),
       {| env := env w1; pending := []; closed := true;
          calls := calls w1 ++ [CallRollback; CallClose];
          stdout := stdout w1 ++ ["Error saving snapshot: " +:+ e] |})) ∧
  (∃ w', collect_and_save_metrics w = (Returned (), w') ∧
         closed w' = true ∧ last (calls w') = Some CallClose) ∧
  (∀ ticks, (run_job ticks w).1 = replicate ticks (Returned ())).
Proof.
  split_and!.
  - intros e w1 Hs. by apply collect_after_raise, step_raises_body.
  - apply collect_returns.
  - intros ticks. revert w. induction ticks as [|n IH]; intros w; [done|].
    simpl. destruct (collect_returns w) as (w' & -> & _).
    specialize (IH w'). destruct (run_job n w') as [rs w'']. simpl in *.
    by rewrite IH.
Qed.

End tick.

(** * Examples *)

(** ** The claims at concrete inputs *)

Lemma dedup_contract_witness :
  (∃ a, (@feed repr_tenths "cpu" (THRESHOLDS cpu) true
           [((75 # 1)%Q, 1); ((75 # 1)%Q, 2)] empty_store).1
        = [Created a; Updated (id a)]) ∧
  (@check_metric_outcome repr_tenths "cpu" (80 # 1)%Q (THRESHOLDS cpu) true 3
     store_after_75).1 = Updated 1.
Proof.
  split.
  - destruct (@dedup_contract repr_tenths "cpu" (75 # 1)%Q (THRESHOLDS cpu)
                true Warning 70 1 2 empty_store eq_refl) as [_ Hfresh].
    destruct (Hfresh eq_refl) as (a & Ha & _). by exists a.
  - destruct (@dedup_contract repr_tenths "cpu" (80 # 1)%Q (THRESHOLDS cpu)
                true Warning 70 3 3 store_after_75 eq_refl) as [Hopen _].
    destruct Hopen as (i & a & a' & Hi & _ & Ho & _); [by vm_compute|].
    rewrite Ho. f_equal.
    destruct i as [|i]; vm_compute in Hi; by simplify_eq.
Defined.

Lemma severity_classification_witness :
  (@check_metric_outcome repr_tenths "cpu" (60 # 1)%Q (THRESHOLDS cpu) true 0
     empty_store).1 = NoChange ∧
  outcome_of_severity "cpu" empty_store
    (@check_metric_outcome repr_tenths "cpu" (75 # 1)%Q (THRESHOLDS cpu) true 0
       empty_store).1 Warning ∧
  outcome_of_severity "cpu" empty_store
    (@check_metric_outcome repr_tenths "cpu" (88 # 1)%Q (THRESHOLDS cpu) true 0
       empty_store).1 Critical ∧
  outcome_of_severity "battery" empty_store
    (@check_metric_outcome repr_tenths "battery" (10 # 1)%Q (THRESHOLDS battery)
       false 0 empty_store).1 Critical ∧
  outcome_of_severity "battery" empty_store
    (@check_metric_outcome repr_tenths "battery" (20 # 1)%Q (THRESHOLDS battery)
       false 0 empty_store).1 Warning ∧
  (@check_metric_outcome repr_tenths "battery" (21 # 1)%Q (THRESHOLDS battery)
     false 0 empty_store).1 = NoChange ∧
  crossed (95 # 1)%Q (THRESHOLDS disk) true = Some (Critical, 95) ∧
  crossed (5 # 1)%Q (THRESHOLDS battery) false = Some (Critical, 10).
Proof.
  split_and!.
  - destruct (@severity_classification repr_tenths cpu (60 # 1)%Q 0 empty_store)
      as (Hhigh & _ & _).
    destruct (Hhigh eq_refl) as (Hnone & _ & _). apply Hnone. by vm_compute.
  - destruct (@severity_classification repr_tenths cpu (75 # 1)%Q 0 empty_store)
      as (Hhigh & _ & _).
    destruct (Hhigh eq_refl) as (_ & Hwarn & _). apply Hwarn; by vm_compute.
  - destruct (@severity_classification repr_tenths cpu (88 # 1)%Q 0 empty_store)
      as (Hhigh & _ & _).
    destruct (Hhigh eq_refl) as (_ & _ & Hcrit). apply Hcrit. by vm_compute.
  - destruct (@severity_classification repr_tenths battery (10 # 1)%Q 0
                empty_store) as (_ & Hlow & _).
    destruct (Hlow eq_refl) as (Hcrit & _ & _). apply Hcrit. by vm_compute.
  - destruct (@severity_classification repr_tenths battery (20 # 1)%Q 0
                empty_store) as (_ & Hlow & _).
    destruct (Hlow eq_refl) as (_ & Hwarn & _). apply Hwarn; by vm_compute.
  - destruct (@severity_classification repr_tenths battery (21 # 1)%Q 0
                empty_store) as (_ & Hlow & _).
    destruct (Hlow eq_refl) as (_ & _ & Hnone). apply Hnone. by vm_compute.
  - destruct (@severity_classification repr_tenths disk (95 # 1)%Q 0
                empty_store) as (_ & _ & Htie).
    apply (Htie "disk" (THRESHOLDS disk) true). split; by vm_compute.
  - destruct (@severity_classification repr_tenths battery (5 # 1)%Q 0
                empty_store) as (_ & _ & Htie).
    apply (Htie "battery" (THRESHOLDS battery) false). split; by vm_compute.
Defined.

Lemma cpu_scenario_witness :
  ∃ w c,
    (@feed repr_tenths "cpu" (THRESHOLDS cpu) true
       [((60 # 1)%Q, 1); ((75 # 1)%Q, 2); ((88 # 1)%Q, 3);
        ((88 # 1)%Q, 4); ((65 # 1)%Q, 5)] empty_store).1
    = [NoChange; Created w; Created c; Updated (id c); NoChange] ∧
    message w = "⚠️ WARNING: CPU usage is high at 75.0% (threshold: 70%)".
Proof.
  destruct (@cpu_scenario repr_tenths 1 2 3 4 5 empty_store eq_refl)
    as (w & c & Ho & _).
  exists w, c. split; [done|].
  vm_compute in Ho. by simplify_eq.
Defined.

Lemma unique_open_per_kind_and_severity_witness :
  (length (open_of "cpu" Warning store_after_75_88) ≤ 1)%nat.
Proof.
  apply (@unique_open_per_kind_and_severity repr_tenths).
  by exists [Evaluate (reading (75 # 1)%Q) noon;
             Evaluate (reading (88 # 1)%Q) noon].
Defined.

Lemma plugged_battery_not_checked_witness :
  @check_and_create_alerts repr_tenths plugged_laptop noon empty_store
  = ([], empty_store).
Proof.
  destruct (@plugged_battery_not_checked repr_tenths plugged_laptop noon
              empty_store (mkBattery (5 # 1)%Q (Some true)) eq_refl eq_refl)
    as (_ & -> & _).
  reflexivity.
Defined.

Lemma acknowledged_then_created_witness :
  ∃ fresh,
    (@check_metric_outcome repr_tenths "cpu" (75 # 1)%Q (THRESHOLDS cpu) true 9
       (acknowledge_alert 1 store_after_75).2).1 = Created fresh ∧
    id fresh = 2 ∧ acknowledged fresh = false.
Proof.
  edestruct (@acknowledged_then_created repr_tenths "cpu" (75 # 1)%Q
               (THRESHOLDS cpu) true Warning 70 9 store_after_75 0)
    as (fresh & _ & _ & Ho & Hack & _).
  - by exists [Evaluate (reading (75 # 1)%Q) noon].
  - reflexivity.
  - reflexivity.
  - exists fresh. split; [exact Ho|]. split; [|exact Hack].
    vm_compute in Ho. by simplify_eq.
Defined.

Lemma side_effect_discipline_witness :
  (@check_metric_outcome repr_tenths "cpu" (80 # 1)%Q (THRESHOLDS cpu) true 5
     store_after_75).1 = Updated 1 ∧
  (∃ a',
     rows (@check_metric_outcome repr_tenths "cpu" (80 # 1)%Q (THRESHOLDS cpu)
             true 5 store_after_75).2 !! 0%nat = Some a' ∧
     metric_value a' = (80 # 1)%Q ∧ timestamp a' = 5 ∧ id a' = 1) ∧
  metric_value <$> rows store_after_75 = [(75 # 1)%Q] ∧
  commits (@check_metric_outcome repr_tenths "cpu" (80 # 1)%Q (THRESHOLDS cpu)
             true 5 store_after_75).2 = S (commits store_after_75).
Proof.
  assert (Ho : (@check_metric_outcome repr_tenths "cpu" (80 # 1)%Q
                  (THRESHOLDS cpu) true 5 store_after_75).1 = Updated 1)
    by reflexivity.
  destruct (@side_effect_discipline repr_tenths "cpu" (80 # 1)%Q
              (THRESHOLDS cpu) true 5 store_after_75) as (Hw & _).
  rewrite Ho in Hw.
  destruct Hw as (i & a & a' & Hi & _ & _ & Ha' & Hv & Ht & Hid & Hrest).
  assert (i = 0%nat) as -> by (apply lookup_lt_Some in Hi; simpl in Hi; lia).
  split_and!; [done| |reflexivity|apply Hrest].
  by exists a'.
Defined.

Lemma tick_error_contained_witness :
  @collect_and_save_metrics repr_tenths Host (@host_collaborators repr_tenths)
    failing_host
  = (Returned (),
     mkWorld (mkHost [Returned (reading (75 # 1)%Q)] None empty_store 0)
       [] true [CallRollback; CallClose]
       ["Error saving snapshot: SamplerUnavailable"]) ∧
  (@run_job repr_tenths Host (@host_collaborators repr_tenths) 2%nat
     failing_host).1 = [Returned (); Returned ()] ∧
  stdout (@run_job repr_tenths Host (@host_collaborators repr_tenths) 2%nat
            failing_host).2
  = ["Error saving snapshot: SamplerUnavailable";
     "🚨 ALERT: ⚠️ WARNING: CPU usage is high at 75.0% (threshold: 70%)";
     "[12:00:00] Saved snapshot - CPU: 75.0%, Memory: 10.0% | 1 new alert(s)"].
Proof.
  split_and!.
  - apply (proj1 (@tick_error_contained repr_tenths Host
                    (@host_collaborators repr_tenths) failing_host)
             "SamplerUnavailable"
             (mkWorld
                (mkHost [Returned (reading (75 # 1)%Q)] None empty_store 0)
                [] false [] [])).
    by apply sampling_raises.
  - apply (proj2 (proj2 (@tick_error_contained repr_tenths Host
                           (@host_collaborators repr_tenths) failing_host))
             2%nat).
  - reflexivity.
Defined.

Lemma message_format_witness :
  ∃ a,
    (@check_metric_outcome repr_tenths "battery" (10 # 1)%Q (THRESHOLDS battery)
       false 0 empty_store).1 = Created a ∧
    message a = "🔴 CRITICAL: Battery level is low at 10.0% (threshold: 10%)".
Proof.
  assert (Hcreated : ∃ a,
    (@check_metric_outcome repr_tenths "battery" (10 # 1)%Q (THRESHOLDS battery)
       false 0 empty_store).1 = Created a) by (eexists; reflexivity).
  destruct Hcreated as [a Ha]. exists a. split; [done|].
  destruct (@message_format repr_tenths battery (10 # 1)%Q (THRESHOLDS battery)
              false 0 empty_store a Ha) as (-> & _).
  vm_compute in Ha. simplify_eq. reflexivity.
Defined.

Lemma refresh_frame_witness :
  (∃ a, rows (@check_metric_outcome repr_tenths "cpu" (80 # 1)%Q
                (THRESHOLDS cpu) true 3 store_after_75).2 = [a] ∧
        metric_value a = (80 # 1)%Q ∧ timestamp a = 3) ∧
  ∃ a,
    open_of "cpu" Warning
      (@feed repr_tenths "cpu" (THRESHOLDS cpu) true
         [((75 # 1)%Q, 1); ((80 # 1)%Q, 2)] empty_store).2 = [a] ∧
    metric_value a = (80 # 1)%Q ∧
    message a = "⚠️ WARNING: CPU usage is high at 75.0% (threshold: 70%)".
Proof.
  split.
  - destruct (proj1 (@refresh_frame repr_tenths "cpu" (80 # 1)%Q
                       (THRESHOLDS cpu) true 3 store_after_75) 1 eq_refl)
      as (i & a & a' & Hi & _ & Hrows & Hv & Ht & _).
    exists a'. rewrite Hrows. split; [|done].
    destruct i as [|i]; vm_compute in Hi; by simplify_eq.
  - destruct (proj2 (@refresh_frame repr_tenths "cpu" (75 # 1)%Q
                       (THRESHOLDS cpu) true 1 empty_store)
                (80 # 1)%Q 2 Warning 70 eq_refl eq_refl eq_refl)
      as (a & Ha & Hv & Hm).
    exists a. by rewrite Hm.
Defined.

(** ** Two live alerts of one kind *)

(** C4 as the specification words it (at most one unacknowledged row per
    metric kind) fails: after the cpu readings 75 and 88 the table holds
    an unacknowledged warning row and an unacknowledged critical row,
    both of kind cpu. *)
Lemma per_kind_uniqueness_fails :
  @reachable repr_tenths store_after_75_88 ∧
  (severity <$> open_of_kind "cpu" store_after_75_88) = [Warning; Critical] ∧
  ¬ (length (open_of_kind "cpu" store_after_75_88) ≤ 1)%nat.
Proof.
  split_and!.
  - by exists [Evaluate (reading (75 # 1)%Q) noon;
               Evaluate (reading (88 # 1)%Q) noon].
  - reflexivity.
  - vm_compute. lia.
Qed.

(** * Further properties of the code *)

(** ** acknowledge_alert on its own *)

Lemma acknowledge_fields (a : Alert) :
  acknowledged (acknowledge a) = true ∧ id (acknowledge a) = id a ∧
  timestamp (acknowledge a) = timestamp a ∧
  metric_type (acknowledge a) = metric_type a ∧
  metric_value (acknowledge a) = metric_value a ∧
  threshold_value (acknowledge a) = threshold_value a ∧
  severity (acknowledge a) = severity a ∧ message (acknowledge a) = message a.
Proof. done. Qed.

Lemma acknowledge_acknowledged (a : Alert) :
  acknowledged a = true → acknowledge a = a.
Proof. destruct a; simpl; by intros ->. Qed.

Lemma acknowledge_alert_true_iff (alert_id : Z) (db : Store) :
  (acknowledge_alert alert_id db).1 = true ↔ alert_id ∈ id <$> rows db.
Proof.
  destruct (acknowledge_alert_cases alert_id db)
    as [(i & a & Hf & ->)|[Hf ->]]; simpl.
  - apply list_find_Some in Hf as (Hi & <- & _).
    split; [intros _|done].
    by eapply list_elem_of_fmap_2, list_elem_of_lookup_2.
  - split; [done|].
    intros (a & -> & Ha)%list_elem_of_fmap.
    rewrite list_find_None, Forall_forall in Hf. by destruct (Hf a Ha).
Qed.


(** X2. A successful [acknowledge_alert] changes one row, the first one
    with the given id, and on it the [acknowledged] flag only; the table
    keeps its length, and the call commits once.  When that row was
    acknowledged already the table is the same as before. *)
Theorem acknowledge_alert_frame (alert_id : Z) (db : Store) :
  (acknowledge_alert alert_id db).1 = true →
  ∃ i a a',
    rows db !! i = Some a ∧ id a = alert_id ∧
    (∀ j b, rows db !! j = Some b → (j < i)%nat → id b ≠ alert_id) ∧
    rows (acknowledge_alert alert_id db).2 = <[i := a']> (rows db) ∧
    length (rows (acknowledge_alert alert_id db).2) = length (rows db) ∧
    commits (acknowledge_alert alert_id db).2 = S (commits db) ∧
    acknowledged a' = true ∧ id a' = id a ∧ timestamp a' = timestamp a ∧
    metric_type a' = metric_type a ∧ metric_value a' = metric_value a ∧
    threshold_value a' = threshold_value a ∧ severity a' = severity a ∧
    message a' = message a ∧
    (acknowledged a = true → rows (acknowledge_alert alert_id db).2 = rows db).
Proof.
  destruct (acknowledge_alert_cases alert_id db)
    as [(i & a & Hf & ->)|[Hf ->]]; [|done].
  intros _. apply list_find_Some in Hf as (Hi & Hid & Hfirst).
  exists i, a, (acknowledge a). simpl.
  split_and!; try done.
  - by apply length_insert.
  - intros Hack. rewrite acknowledge_acknowledged by done.
    by apply list_insert_id.
Qed.

(** X3. Acknowledging the same id a second time gives the same answer as
    the first time and the same rows; when the id exists both calls
    commit. *)
Theorem acknowledge_alert_twice (alert_id : Z) (db : Store) :
  (acknowledge_alert alert_id (acknowledge_alert alert_id db).2).1
  = (acknowledge_alert alert_id db).1 ∧
  rows (acknowledge_alert alert_id (acknowledge_alert alert_id db).2).2
  = rows (acknowledge_alert alert_id db).2 ∧
  commits (acknowledge_alert alert_id (acknowledge_alert alert_id db).2).2
  = if (acknowledge_alert alert_id db).1 then S (S (commits db))
    else commits db.
Proof.
  destruct (acknowledge_alert_cases alert_id db)
    as [(i & a & Hf & ->)|[Hf ->]]; cbn [fst snd].
  - pose proof Hf as (Hi & Hid & Hfirst)%list_find_Some.
    assert (Hf' : list_find (λ a, id a = alert_id)
                    (rows (db_commit (db_set i (acknowledge a) db)))
                  = Some (i, acknowledge a)).
    { apply list_find_Some. simpl. split_and!; [|done|].
      - apply list_lookup_insert_eq. by eapply lookup_lt_Some.
      - intros j b Hj Hlt. rewrite list_lookup_insert_ne in Hj by lia.
        by eapply Hfirst. }
    unfold acknowledge_alert. rewrite Hf'. simpl.
    split_and!; [done| |done].
    by rewrite list_insert_insert_eq.
  - unfold acknowledge_alert. by rewrite Hf.
Qed.

Section final_rows.
Context `{FloatFormat}.

Lemma check_metric_keeps_acknowledged k v th hiw now db i a :
  rows db !! i = Some a → acknowledged a = true →
  rows (check_metric_outcome k v th hiw now db).2 !! i = Some a.
Proof.
  intros Hi Hack.
  pose proof (check_metric_cases k v th hiw now db) as Hcases.
  destruct (check_metric_outcome k v th hiw now db).1 as [|existing_id|c].
  - by rewrite Hcases.
  - destruct Hcases as (j & b & Hj & _ & _ & Hopen & _ & -> & _).
    rewrite list_lookup_insert_ne; [done|].
    intros ->. congruence.
  - destruct Hcases as (-> & _). by apply lookup_app_l_Some.
Qed.

Lemma evaluate_keeps_acknowledged metrics nows db i a :
  rows db !! i = Some a → acknowledged a = true →
  rows (check_and_create_alerts metrics nows db).2 !! i = Some a.
Proof.
  intros Hi Hack. unfold check_and_create_alerts, check_metric.
  pose proof (check_metric_keeps_acknowledged "cpu"
    (cpu_usage_percent metrics) (THRESHOLDS cpu) true (nows cpu) db i a
    Hi Hack) as H1.
  destruct (check_metric_outcome "cpu" _ _ _ _ db) as [o1 db1].
  pose proof (check_metric_keeps_acknowledged "memory"
    (memory_usage_percent metrics) (THRESHOLDS memory) true (nows memory)
    db1 i a H1 Hack) as H2.
  destruct (check_metric_outcome "memory" _ _ _ _ db1) as [o2 db2].
  pose proof (check_metric_keeps_acknowledged "disk"
    (disk_usage_percent metrics) (THRESHOLDS disk) true (nows disk)
    db2 i a H2 Hack) as H3.
  destruct (check_metric_outcome "disk" _ _ _ _ db2) as [o3 db3].
  destruct (battery_reading metrics) as [b|]; [|done].
  destruct (negb (truthy (is_plugged b))); [|done].
  pose proof (check_metric_keeps_acknowledged "battery" (percent b)
    (THRESHOLDS battery) false (nows battery) db3 i a H3 Hack) as H4.
  by destruct (check_metric_outcome "battery" _ _ _ _ db3) as [o4 db4].
Qed.

Lemma acknowledge_keeps_acknowledged alert_id db i a :
  rows db !! i = Some a → acknowledged a = true →
  rows (acknowledge_alert alert_id db).2 !! i = Some a.
Proof.
  intros Hi Hack.
  destruct (acknowledge_alert_cases alert_id db)
    as [(j & b & Hf & ->)|[_ ->]]; [|done].
  apply list_find_Some in Hf as (Hj & _ & _). simpl.
  destruct (decide (j = i)) as [->|Hne].
  - assert (b = a) as -> by congruence.
    rewrite acknowledge_acknowledged by done.
    by rewrite list_insert_id.
  - by rewrite list_lookup_insert_ne.
Qed.

(** X4. An acknowledged row is final: whatever evaluations and
    acknowledgments follow, the row stays at its position with every
    field as it was. *)
Theorem acknowledged_rows_are_final (ops : list Op) db i a :
  rows db !! i = Some a → acknowledged a = true →
  rows (foldl run_op db ops) !! i = Some a.
Proof.
  revert db. induction ops as [|op ops IH]; intros db Hi Hack; [done|].
  simpl. apply IH; [|done].
  destruct op as [metrics nows|alert_id]; simpl.
  - by apply evaluate_keeps_acknowledged.
  - by apply acknowledge_keeps_acknowledged.
Qed.

End final_rows.

(** ** Invariants of the reachable tables *)

Lemma kind_str_inj (k k' : MetricKind) : kind_str k = kind_str k' → k = k'.
Proof. by destruct k, k'. Qed.

Lemma next_id_upper (l : list Alert) (n : Z) :
  0 ≤ n → Forall (λ a, id a ≤ n) l → next_id l ≤ n + 1.
Proof.
  intros Hn Hall. unfold next_id.
  induction Hall as [|a l Ha _ IH]; [simpl; lia|].
  rewrite fmap_cons. cbn [foldr]. lia.
Qed.

Lemma next_id_consecutive (l : list Alert) :
  (∀ i a, l !! i = Some a → id a = Z.of_nat i + 1) →
  next_id l = Z.of_nat (length l) + 1.
Proof.
  intros Hids.
  assert (Hup : next_id l ≤ Z.of_nat (length l) + 1).
  { apply next_id_upper; [lia|]. apply Forall_lookup. intros i a Hi.
    rewrite (Hids i a Hi). apply lookup_lt_Some in Hi. lia. }
  destruct (decide (l = [])) as [->|Hne]; [done|].
  destruct (last l) as [a|] eqn:Hlast; [|by apply last_None in Hlast].
  rewrite last_lookup in Hlast.
  pose proof (id_lt_next_id l a (list_elem_of_lookup_2 _ _ _ Hlast)) as Hlt.
  rewrite (Hids _ _ Hlast) in Hlt.
  assert (length l ≠ 0%nat) by by destruct l.
  lia.
Qed.

Section reachable_tables.
Context `{FloatFormat}.

(** The row a check creates. *)
Lemma check_metric_created k v th hiw now db a :
  (check_metric_outcome k v th hiw now db).1 = Created a →
  ∃ s thr,
    crossed v th hiw = Some (s, thr) ∧
    a = mkAlert (next_id (rows db)) now k v thr s
          (generate_alert_message k v thr (severity_str s)) false.
Proof.
  unfold check_metric_outcome.
  destruct (crossed v th hiw) as [[s thr]|]; [|done].
  destruct (list_find _ (rows db)) as [[i x]|]; [done|].
  simpl. intros [= <-]. by exists s, thr.
Qed.

Lemma consecutive_ids_check k v th hiw now db :
  consecutive_ids db →
  consecutive_ids (check_metric_outcome k v th hiw now db).2.
Proof.
  unfold consecutive_ids. intros Hids.
  pose proof (check_metric_cases k v th hiw now db) as Hcases.
  destruct (check_metric_outcome k v th hiw now db).1 as [|existing_id|c].
  - by rewrite Hcases.
  - destruct Hcases as (j & b & Hj & _ & _ & _ & _ & -> & _).
    intros i a [[-> [<- _]]|[_ Hi]]%list_lookup_insert_Some; simpl; eauto.
  - destruct Hcases as (-> & _ & Hid & _).
    intros i a [Hi|[Hle Hi]]%lookup_app_Some; [eauto|].
    apply list_lookup_singleton_Some in Hi as [Hi <-].
    rewrite Hid, next_id_consecutive by done. lia.
Qed.

Lemma justified_check (k : MetricKind) v now db :
  Forall justified (rows db) →
  Forall justified
    (rows (check_metric_outcome (kind_str k) v (THRESHOLDS k)
             (higher_is_worse k) now db).2).
Proof.
  intros Hall.
  pose proof (check_metric_cases (kind_str k) v (THRESHOLDS k)
                (higher_is_worse k) now db) as Hcases.
  destruct (check_metric_outcome (kind_str k) v (THRESHOLDS k)
              (higher_is_worse k) now db) as [o db'] eqn:Hcheck.
  destruct o as [|existing_id|c]; simpl in *.
  - by subst.
  - destruct Hcases as (j & b & Hj & _ & Hk & _ & (thr & Hc) & -> & _).
    apply Forall_insert; [done|].
    rewrite Forall_lookup in Hall.
    destruct (Hall j b Hj) as (k' & Hk' & Hc').
    assert (k' = k) as -> by (apply kind_str_inj; congruence).
    exists k. split; [done|]. simpl.
    apply crossed_threshold in Hc as Hthr. apply crossed_threshold in Hc'.
    rewrite Hc. congruence.
  - destruct Hcases as (-> & _).
    apply Forall_app. split; [done|]. apply Forall_singleton.
    destruct (check_metric_created (kind_str k) v (THRESHOLDS k)
                (higher_is_worse k) now db c) as (s & thr & Hc & ->).
    { by rewrite Hcheck. }
    by exists k.
Qed.

(** Both invariants through the four checks of an evaluation. *)
Lemma evaluate_invariants metrics nows db :
  consecutive_ids db ∧ Forall justified (rows db) →
  consecutive_ids (check_and_create_alerts metrics nows db).2 ∧
  Forall justified (rows (check_and_create_alerts metrics nows db).2).
Proof.
  intros [Hids Hjust]. unfold check_and_create_alerts, check_metric.
  pose proof (consecutive_ids_check "cpu" (cpu_usage_percent metrics)
                (THRESHOLDS cpu) true (nows cpu) db Hids) as I1.
  pose proof (justified_check cpu (cpu_usage_percent metrics) (nows cpu)
                db Hjust) as J1. simpl in J1.
  destruct (check_metric_outcome "cpu" _ _ _ _ db) as [o1 db1].
  pose proof (consecutive_ids_check "memory" (memory_usage_percent metrics)
                (THRESHOLDS memory) true (nows memory) db1 I1) as I2.
  pose proof (justified_check memory (memory_usage_percent metrics)
                (nows memory) db1 J1) as J2. simpl in J2.
  destruct (check_metric_outcome "memory" _ _ _ _ db1) as [o2 db2].
  pose proof (consecutive_ids_check "disk" (disk_usage_percent metrics)
                (THRESHOLDS disk) true (nows disk) db2 I2) as I3.
  pose proof (justified_check disk (disk_usage_percent metrics)
                (nows disk) db2 J2) as J3. simpl in J3.
  destruct (check_metric_outcome "disk" _ _ _ _ db2) as [o3 db3].
  destruct (battery_reading metrics) as [b|]; [|done].
  destruct (negb (truthy (is_plugged b))); [|done].
  pose proof (consecutive_ids_check "battery" (percent b)
                (THRESHOLDS battery) false (nows battery) db3 I3) as I4.
  pose proof (justified_check battery (percent b) (nows battery)
                db3 J3) as J4. simpl in J4.
  by destruct (check_metric_outcome "battery" _ _ _ _ db3) as [o4 db4].
Qed.

Lemma acknowledge_invariants alert_id db :
  consecutive_ids db ∧ Forall justified (rows db) →
  consecutive_ids (acknowledge_alert alert_id db).2 ∧
  Forall justified (rows (acknowledge_alert alert_id db).2).
Proof.
  intros [Hids Hjust].
  destruct (acknowledge_alert_cases alert_id db)
    as [(j & b & Hf & ->)|[_ ->]]; [|done].
  apply list_find_Some in Hf as (Hj & _ & _). simpl. split.
  - intros i a [[-> [<- _]]|[_ Hi]]%list_lookup_insert_Some; simpl; eauto.
  - apply Forall_insert; [done|].
    rewrite Forall_lookup in Hjust. by apply (Hjust j b).
Qed.

Lemma reachable_invariants db :
  reachable db → consecutive_ids db ∧ Forall justified (rows db).
Proof.
  intros [ops ->]. unfold run_ops.
  assert (Hempty : consecutive_ids empty_store ∧
                   Forall justified (rows empty_store)).
  { split; [by intros i a Hi|constructor]. }
  revert Hempty. generalize empty_store.
  induction ops as [|op ops IH]; intros db Hinv; [done|].
  simpl. apply IH. destruct op; simpl.
  - by apply evaluate_invariants.
  - by apply acknowledge_invariants.
Qed.

(** X5. In a reachable store the ids are the positions: the row at
    position [i] (from 0) has id [i + 1].  So [acknowledge_alert]
    succeeds exactly for the ids from 1 to the number of rows. *)
Theorem reachable_ids_are_positions db :
  reachable db →
  (∀ i a, rows db !! i = Some a → id a = Z.of_nat i + 1) ∧
  (∀ alert_id,
     (acknowledge_alert alert_id db).1 = true
     ↔ 1 ≤ alert_id ≤ Z.of_nat (length (rows db))).
Proof.
  intros [Hids _]%reachable_invariants. split; [done|].
  intros alert_id.
  rewrite acknowledge_alert_true_iff.
  rewrite list_elem_of_fmap. split.
  - intros (a & -> & (i & Hi)%list_elem_of_lookup).
    rewrite (Hids i a Hi). apply lookup_lt_Some in Hi. lia.
  - intros Hrange.
    destruct (lookup_lt_is_Some_2 (rows db) (Z.to_nat (alert_id - 1)))
      as [a Ha]; [lia|].
    exists a. split; [|by eapply list_elem_of_lookup_2].
    rewrite (Hids _ a Ha). lia.
Qed.

(** X6. Every row of a reachable store is justified by what it stores:
    its metric type is one of the four kinds, its value crosses, for that
    kind, the severity stored with it, and its threshold is that
    severity's entry of [THRESHOLDS] for the kind. *)
Theorem reachable_rows_justified db a :
  reachable db → a ∈ rows db →
  ∃ k : MetricKind,
    metric_type a = kind_str k ∧
    crossed (metric_value a) (THRESHOLDS k) (higher_is_worse k)
    = Some (severity a, threshold_value a) ∧
    threshold_value a
    = match severity a with
      | Warning => warning (THRESHOLDS k)
      | Critical => critical (THRESHOLDS k)
      end.
Proof.
  intros [_ Hjust]%reachable_invariants Ha.
  rewrite Forall_forall in Hjust.
  destruct (Hjust a Ha) as (k & Hk & Hc). exists k.
  split_and!; [done..|]. by apply crossed_threshold in Hc.
Qed.

End reachable_tables.

(** ** The queries *)

#[local] Instance newer_first_total : Total newer_first.
Proof. intros a b. unfold newer_first. lia. Qed.

#[local] Instance newer_first_trans : Transitive newer_first.
Proof. intros a b c. unfold newer_first. lia. Qed.

Lemma order_by_timestamp_desc_perm (l : list Alert) :
  order_by_timestamp_desc l ≡ₚ l.
Proof. apply merge_sort_Permutation. Qed.

Lemma order_by_timestamp_desc_sorted (l : list Alert) :
  StronglySorted newer_first (order_by_timestamp_desc l).
Proof. apply StronglySorted_merge_sort; apply _. Qed.

Lemma length_filter_impl {A} (P Q : A → Prop)
    `{!∀ x, Decision (P x), !∀ x, Decision (Q x)} (l : list A) :
  (∀ x, P x → Q x) → (length (filter P l) ≤ length (filter Q l))%nat.
Proof.
  intros HPQ. induction l as [|x l IH]; [done|].
  rewrite !filter_cons.
  destruct (decide (P x)) as [HP|HP], (decide (Q x)) as [HQ|HQ]; simpl;
    try lia.
  destruct HQ. by apply HPQ.
Qed.

Lemma active_open_of k s db :
  filter (open_alert k s) (get_active_alerts db) ≡ₚ open_of k s db.
Proof.
  unfold get_active_alerts, open_of.
  rewrite order_by_timestamp_desc_perm, list_filter_filter.
  erewrite list_filter_iff; [done|].
  intros a. unfold open_alert. tauto.
Qed.

(** X7. [get_active_alerts] lists the unacknowledged rows of the table,
    each once and no other row, newest first: no row is followed by a
    row with a later timestamp. *)
Theorem get_active_alerts_spec (db : Store) :
  get_active_alerts db ≡ₚ filter (λ a, acknowledged a = false) (rows db) ∧
  (∀ a, a ∈ get_active_alerts db ↔ a ∈ rows db ∧ acknowledged a = false) ∧
  (∀ i j a b,
     get_active_alerts db !! i = Some a → get_active_alerts db !! j = Some b →
     (i < j)%nat → timestamp b ≤ timestamp a).
Proof.
  split_and!.
  - apply order_by_timestamp_desc_perm.
  - intros a. unfold get_active_alerts.
    rewrite order_by_timestamp_desc_perm, list_elem_of_filter. tauto.
  - intros i j a b Hi Hj Hlt.
    pose proof (order_by_timestamp_desc_sorted
                  (filter (λ a, acknowledged a = false) (rows db))) as Hs.
    fold (get_active_alerts db) in Hs.
    rewrite <- (take_drop_middle _ i a Hi) in Hs, Hj.
    apply StronglySorted_app_1_r in Hs.
    apply StronglySorted_cons in Hs as [Hall _].
    rewrite lookup_app_r in Hj by (rewrite length_take; lia).
    rewrite length_take_le in Hj by (apply lookup_lt_Some in Hi; lia).
    destruct (j - i)%nat as [|n] eqn:Hn; [lia|]. simpl in Hj.
    rewrite Forall_lookup in Hall. by apply (Hall n b).
Qed.

(** A cutoff in the range of [datetime] is at most 3652059 days away
    from [now], far less than a [timedelta] can hold. *)
Lemma cutoff_in_range_days (hours : Z) (now : Time) :
  is_datetime now → is_datetime (now - hours * 3600000000) →
  - 999999999 ≤ hours / 24 ≤ 999999999.
Proof.
  unfold is_datetime, datetime_min, datetime_max. intros Hnow Hc.
  pose proof (Z.div_mod hours 24 ltac:(lia)) as Hq.
  pose proof (Z.mod_pos_bound hours 24 ltac:(lia)) as Hr.
  lia.
Qed.

(** The cutoff of [get_alert_history] is computed exactly when it is a
    [datetime]. *)
Lemma get_alert_history_cutoff (hours : Z) (now : Time) (db : Store) :
  is_datetime now →
  get_alert_history hours now db
  = if decide (is_datetime (now - hours * 3600000000))
    then inr (order_by_timestamp_desc
                (filter (λ a, now - hours * 3600000000 ≤ timestamp a)
                   (rows db)))
    else inl OverflowError.
Proof.
  intros Hnow. unfold get_alert_history, timedelta_hours, datetime_sub.
  destruct (decide (is_datetime (now - hours * 3600000000))) as [Hc|Hc].
  - rewrite decide_True by by apply (cutoff_in_range_days hours now).
    by rewrite decide_True.
  - case_decide; [|done]. by rewrite decide_False.
Qed.

(** X8. Called at an instant [now], [get_alert_history] raises
    [OverflowError] exactly when [hours] hours before [now] is outside
    the range of [datetime]; otherwise it lists the rows whose timestamp
    is not older than that cutoff, acknowledged or not, newest first,
    and a longer window that is still in range lists at least the rows
    of a shorter one. *)
Theorem get_alert_history_spec (hours : Z) (now : Time) (db : Store) :
  is_datetime now →
  (¬ is_datetime (now - hours * 3600000000) →
   get_alert_history hours now db = inl OverflowError) ∧
  (is_datetime (now - hours * 3600000000) →
   ∃ l,
     get_alert_history hours now db = inr l ∧
     (∀ a, a ∈ l ↔ a ∈ rows db ∧ now - hours * 3600000000 ≤ timestamp a) ∧
     (∀ i j a b,
        l !! i = Some a → l !! j = Some b →
        (i < j)%nat → timestamp b ≤ timestamp a)) ∧
  (∀ hours' l l',
     hours ≤ hours' →
     get_alert_history hours now db = inr l →
     get_alert_history hours' now db = inr l' →
     l ⊆ l' ∧ (length l ≤ length l')%nat).
Proof.
  intros Hnow. split_and!.
  - intros Hc. rewrite get_alert_history_cutoff by done.
    by rewrite decide_False.
  - intros Hc. rewrite get_alert_history_cutoff by done.
    rewrite decide_True by done. eexists. split_and!; [done|..].
    + intros a. rewrite order_by_timestamp_desc_perm, list_elem_of_filter.
      tauto.
    + intros i j a b Hi Hj Hlt.
      pose proof (order_by_timestamp_desc_sorted
        (filter (λ a, now - hours * 3600000000 ≤ timestamp a) (rows db)))
        as Hs.
      rewrite <- (take_drop_middle _ i a Hi) in Hs, Hj.
      apply StronglySorted_app_1_r in Hs.
      apply StronglySorted_cons in Hs as [Hall _].
      rewrite lookup_app_r in Hj by (rewrite length_take; lia).
      rewrite length_take_le in Hj by (apply lookup_lt_Some in Hi; lia).
      destruct (j - i)%nat as [|n] eqn:Hn; [lia|]. simpl in Hj.
      rewrite Forall_lookup in Hall. by apply (Hall n b).
  - intros hours' l l' Hle. rewrite !get_alert_history_cutoff by done.
    destruct (decide (is_datetime (now - hours * 3600000000))); [|done].
    destruct (decide (is_datetime (now - hours' * 3600000000))); [|done].
    intros [= <-] [= <-]. split.
    + intros a.
      rewrite !order_by_timestamp_desc_perm, !list_elem_of_filter.
      intros [? ?]. split; [lia|done].
    + rewrite !(Permutation_length (order_by_timestamp_desc_perm _)).
      apply length_filter_impl. intros a. lia.
Qed.

Lemma singleton_of_short {A} (l : list A) (x : A) :
  x ∈ l → (length l ≤ 1)%nat → l = [x].
Proof.
  destruct l as [|y [|z l]]; simpl; intros Hx Hlen; [|..|lia].
  - by apply elem_of_nil in Hx.
  - by apply list_elem_of_singleton in Hx as ->.
Qed.

Lemma filter_all {A} (P : A → Prop) `{!∀ x, Decision (P x)} (l : list A) :
  Forall P l → filter P l = l.
Proof.
  induction 1 as [|x l Hx _ IH]; [done|].
  by rewrite filter_cons_True, IH.
Qed.

(** With every (pair, row) match counted, each row that matches some pair
    of [ps] is counted at least once. *)
Lemma length_le_open_counts (ps : list (string * Severity)) (l : list Alert) :
  Forall (λ a, ∃ p, p ∈ ps ∧ open_alert p.1 p.2 a) l →
  (length l
   ≤ sum_list_with (λ p, length (filter (open_alert p.1 p.2) l)) ps)%nat.
Proof.
  induction 1 as [|a l (p0 & Hp0 & Ha) _ IH]; [simpl; lia|].
  assert (Hstep :
    (sum_list_with (λ p, length (filter (open_alert p.1 p.2) l)) ps + 1
     ≤ sum_list_with (λ p, length (filter (open_alert p.1 p.2) (a :: l))) ps)%nat);
    [|simpl; lia].
  clear IH. induction ps as [|p ps IHps]; [by apply elem_of_nil in Hp0|].
  assert (Hmono : ∀ qs,
    (sum_list_with (λ p, length (filter (open_alert p.1 p.2) l)) qs
     ≤ sum_list_with (λ p, length (filter (open_alert p.1 p.2) (a :: l))) qs)%nat).
  { induction qs as [|q qs IHqs]; [done|]. simpl.
    rewrite filter_cons. destruct (decide (open_alert q.1 q.2 a)); simpl; lia. }
  simpl. apply elem_of_cons in Hp0 as [->|Hp0].
  - rewrite filter_cons_True by done. specialize (Hmono ps). simpl. lia.
  - specialize (IHps Hp0). rewrite filter_cons.
    destruct (decide (open_alert p.1 p.2 a)); simpl; lia.
Qed.

Lemma sum_of_small {A} (f : A → nat) (l : list A) :
  (∀ x, f x ≤ 1)%nat → (sum_list_with f l ≤ length l)%nat.
Proof.
  intros Hf. induction l as [|x l IH]; [done|].
  simpl. specialize (Hf x). lia.
Qed.

Section active_alerts.
Context `{FloatFormat}.

(** X9. In a reachable store, after a check whose reading crosses
    severity [s] for [k], [get_active_alerts] lists exactly one
    unacknowledged ([k], [s]) alert, and it carries the value and the
    instant of that check. *)
Theorem written_alert_is_active k v th hiw s thr now db :
  reachable db →
  crossed v th hiw = Some (s, thr) →
  ∃ a,
    filter (open_alert k s)
      (get_active_alerts (check_metric_outcome k v th hiw now db).2) = [a] ∧
    a ∈ get_active_alerts (check_metric_outcome k v th hiw now db).2 ∧
    metric_value a = v ∧ timestamp a = now ∧
    metric_type a = k ∧ severity a = s.
Proof.
  intros Hr Hc.
  pose proof (store_ok_check k v th hiw now db (reachable_store_ok db Hr))
    as [_ Hone].
  specialize (Hone k s).
  assert (Hin : ∃ a,
    a ∈ open_of k s (check_metric_outcome k v th hiw now db).2 ∧
    metric_value a = v ∧ timestamp a = now).
  { destruct (list_find (open_alert k s) (rows db)) as [[i a0]|] eqn:Hf.
    - rewrite (check_metric_found _ _ _ _ _ _ _ _ _ _ Hc Hf).
      pose proof Hf as (Hi & Ha0 & _)%list_find_Some.
      exists (refresh a0 v now). split; [|done].
      unfold open_of. rewrite list_elem_of_filter. split; [done|].
      cbn [snd]. rewrite rows_refreshed.
      eapply list_elem_of_lookup_2, list_lookup_insert_eq.
      by eapply lookup_lt_Some.
    - rewrite (check_metric_fresh _ _ _ _ _ _ _ _ Hc Hf).
      set (c := mkAlert (next_id (rows db)) now k v thr s
                  (generate_alert_message k v thr (severity_str s)) false).
      exists c. split; [|done].
      unfold open_of. rewrite list_elem_of_filter. split; [done|].
      cbn [snd]. rewrite rows_added, elem_of_app, list_elem_of_singleton.
      by right. }
  destruct Hin as (a & Ha & Hv & Ht). exists a.
  pose proof (singleton_of_short _ a Ha Hone) as Heq.
  pose proof (active_open_of k s (check_metric_outcome k v th hiw now db).2)
    as Hperm.
  rewrite Heq in Hperm. apply Permutation_singleton_r in Hperm.
  apply list_elem_of_filter in Ha as [(? & ? & _) _].
  split_and!; try done.
  assert (Hm : a ∈ filter (open_alert k s)
                 (get_active_alerts (check_metric_outcome k v th hiw now db).2)).
  { rewrite Hperm. by apply list_elem_of_singleton. }
  by apply list_elem_of_filter in Hm as [_ ?].
Qed.

(** X10. In a reachable store, acknowledging an alert that
    [get_active_alerts] lists succeeds and removes that alert from the
    list and no other: the list afterwards holds the alerts of the list
    before whose id differs, and is one shorter. *)
Theorem acknowledged_alert_leaves_active db a :
  reachable db →
  a ∈ get_active_alerts db →
  (acknowledge_alert (id a) db).1 = true ∧
  get_active_alerts (acknowledge_alert (id a) db).2
    ≡ₚ filter (λ b, id b ≠ id a) (get_active_alerts db) ∧
  (∀ b, b ∈ get_active_alerts (acknowledge_alert (id a) db).2
        ↔ b ∈ get_active_alerts db ∧ id b ≠ id a) ∧
  (length (get_active_alerts (acknowledge_alert (id a) db).2) + 1
   = length (get_active_alerts db))%nat.
Proof.
  intros [Hids _]%reachable_store_ok Ha.
  unfold get_active_alerts in Ha.
  rewrite order_by_timestamp_desc_perm, list_elem_of_filter in Ha.
  destruct Ha as [Hack (i & Hi)%list_elem_of_lookup].
  unfold acknowledge_alert. rewrite (find_by_id_unique _ i a) by done.
  cbn [fst snd]. unfold get_active_alerts. simpl.
  set (U := λ b : Alert, acknowledged b = false).
  apply list_elem_of_split_length in Hi as (l1 & l2 & Hrows & ->).
  rewrite Hrows in *.
  replace (length l1) with (length l1 + 0)%nat by lia.
  rewrite insert_app_r. simpl.
  rewrite fmap_app, fmap_cons in Hids.
  apply NoDup_app in Hids as (_ & Hl1 & [Hl2 _]%NoDup_cons).
  assert (H1 : Forall (λ b, id b ≠ id a) (filter U l1)).
  { apply Forall_forall. intros b [_ Hb]%list_elem_of_filter Heq.
    apply (Hl1 (id a)); [|by left].
    rewrite <- Heq. by apply list_elem_of_fmap_2. }
  assert (H2 : Forall (λ b, id b ≠ id a) (filter U l2)).
  { apply Forall_forall. intros b [_ Hb]%list_elem_of_filter Heq.
    apply Hl2. rewrite <- Heq. by apply list_elem_of_fmap_2. }
  assert (Hperm :
    order_by_timestamp_desc (filter U (l1 ++ acknowledge a :: l2))
    ≡ₚ filter (λ b, id b ≠ id a)
         (order_by_timestamp_desc (filter U (l1 ++ a :: l2)))).
  { rewrite !order_by_timestamp_desc_perm.
    rewrite !filter_app, !filter_cons.
    rewrite (decide_False (P := U (acknowledge a))) by done.
    rewrite (decide_True (P := U a)) by done.
    rewrite ?filter_app, filter_cons_False by (intros Hne; by apply Hne).
    by rewrite (filter_all _ _ H1), (filter_all _ _ H2). }
  split_and!; [done|done| |].
  - intros b. rewrite Hperm, list_elem_of_filter. tauto.
  - rewrite !(Permutation_length (order_by_timestamp_desc_perm _)).
    rewrite !filter_app, !filter_cons.
    rewrite (decide_False (P := U (acknowledge a))) by done.
    rewrite (decide_True (P := U a)) by done.
    rewrite !length_app. simpl. lia.
Qed.

(** X11. In a reachable store [get_active_alerts] never lists more than
    eight alerts: one per metric kind and severity. *)
Theorem active_alerts_bounded db :
  reachable db → (length (get_active_alerts db) ≤ 8)%nat.
Proof.
  intros Hr.
  pose proof (reachable_store_ok db Hr) as [_ Hone].
  pose proof (reachable_invariants db Hr) as [_ Hjust].
  unfold get_active_alerts.
  rewrite (Permutation_length (order_by_timestamp_desc_perm _)).
  set (ps := [("cpu", Warning); ("cpu", Critical); ("memory", Warning);
              ("memory", Critical); ("disk", Warning); ("disk", Critical);
              ("battery", Warning); ("battery", Critical)]).
  etrans; [apply (length_le_open_counts ps)|].
  - apply Forall_forall. intros a [Hack Ha]%list_elem_of_filter.
    rewrite Forall_forall in Hjust.
    destruct (Hjust a Ha) as (k & Hk & _).
    exists (kind_str k, severity a). split; [|done].
    unfold ps. rewrite !elem_of_cons.
    destruct k, (severity a); simpl; tauto.
  - etrans; [apply sum_of_small|done].
    intros [k s]. simpl. etrans; [|apply (Hone k s)].
    rewrite list_filter_filter. unfold open_of.
    apply length_filter_impl. tauto.
Qed.

End active_alerts.

(** ** Whole evaluations *)

Lemma crossed_none_iff (k : MetricKind) (v : Q) :
  crossed v (THRESHOLDS k) (higher_is_worse k) = None
  ↔ if higher_is_worse k
    then (v < inject_Z (warning (THRESHOLDS k)))%Q
    else (inject_Z (warning (THRESHOLDS k)) < v)%Q.
Proof.
  split.
  - unfold crossed. destruct (higher_is_worse k).
    + destruct (Qle_bool (inject_Z (critical _)) v); [done|].
      destruct (Qle_bool (inject_Z (warning _)) v) eqn:Hw; [done|].
      intros _. by apply Qle_bool_false.
    + destruct (Qle_bool v (inject_Z (critical _))); [done|].
      destruct (Qle_bool v (inject_Z (warning _))) eqn:Hw; [done|].
      intros _. by apply Qle_bool_false.
  - destruct k; cbn [higher_is_worse]; intros Hv;
      first [apply crossed_high_none | apply crossed_low_none];
      first [exact Hv | simpl; lia].
Qed.

Section evaluations.
Context `{FloatFormat}.
Implicit Types (k : string) (v : Q) (th : Thresholds) (db : Store).

Lemma append_if_inserted (l : list Alert) (o : AlertOutcome) :
  append_if l (returned o) = l ++ inserted o.
Proof. destruct o; simpl; by rewrite ?app_nil_r. Qed.

(** [check_and_create_alerts] as the chain of its checks. *)
Lemma evaluate_steps metrics nows db :
  check_and_create_alerts metrics nows db
  = let r1 := check_metric_outcome "cpu" (cpu_usage_percent metrics)
                (THRESHOLDS cpu) true (nows cpu) db in
    let r2 := check_metric_outcome "memory" (memory_usage_percent metrics)
                (THRESHOLDS memory) true (nows memory) r1.2 in
    let r3 := check_metric_outcome "disk" (disk_usage_percent metrics)
                (THRESHOLDS disk) true (nows disk) r2.2 in
    match battery_reading metrics with
    | Some b =>
      if truthy (is_plugged b)
      then (inserted r1.1 ++ inserted r2.1 ++ inserted r3.1, r3.2)
      else
        let r4 := check_metric_outcome "battery" (percent b)
                    (THRESHOLDS battery) false (nows battery) r3.2 in
        (inserted r1.1 ++ inserted r2.1 ++ inserted r3.1 ++ inserted r4.1,
         r4.2)
    | None => (inserted r1.1 ++ inserted r2.1 ++ inserted r3.1, r3.2)
    end.
Proof.
  unfold check_and_create_alerts, check_metric. cbv zeta.
  destruct (check_metric_outcome "cpu" _ _ _ _ db) as [o1 db1].
  cbn [fst snd].
  destruct (check_metric_outcome "memory" _ _ _ _ db1) as [o2 db2].
  cbn [fst snd].
  destruct (check_metric_outcome "disk" _ _ _ _ db2) as [o3 db3].
  cbn [fst snd].
  destruct (battery_reading metrics) as [b|].
  - destruct (truthy (is_plugged b)); cbn [negb].
    + by rewrite !append_if_inserted, <- !app_assoc.
    + destruct (check_metric_outcome "battery" _ _ _ _ db3) as [o4 db4].
      cbn [fst snd]. by rewrite !append_if_inserted, <- !app_assoc.
  - by rewrite !append_if_inserted, <- !app_assoc.
Qed.

(** X12. [check_metric] returns a row exactly when it inserted one: a
    returned row is the last row of the table afterwards, unacknowledged;
    [None] means the table has as many rows as before.  A reading that
    crosses a threshold while its alert is already open returns [None]
    too. *)
Theorem check_metric_returns_inserted_row k v th hiw now db :
  (∀ a, (check_metric k v th hiw now db).1 = Some a →
        rows (check_metric k v th hiw now db).2 = rows db ++ [a] ∧
        acknowledged a = false ∧ metric_type a = k ∧ metric_value a = v) ∧
  ((check_metric k v th hiw now db).1 = None ↔
     length (rows (check_metric k v th hiw now db).2) = length (rows db)) ∧
  (∀ s thr, crossed v th hiw = Some (s, thr) → open_of k s db ≠ [] →
     (check_metric k v th hiw now db).1 = None).
Proof.
  unfold check_metric.
  pose proof (check_metric_cases k v th hiw now db) as Hcases.
  pose proof (check_metric_created k v th hiw now db) as Hcreated.
  destruct (check_metric_outcome k v th hiw now db) as [o db'] eqn:Hcheck.
  cbn [fst snd] in *. split_and!.
  - intros a Ha. destruct o as [|existing_id|c]; simplify_eq/=.
    destruct Hcases as (? & _ & _ & ? & ? & _).
    destruct (Hcreated a eq_refl) as (s & thr & _ & ->). done.
  - destruct o as [|existing_id|c]; simpl.
    + by subst.
    + destruct Hcases as (i & a & _ & _ & _ & _ & _ & -> & _).
      by rewrite length_insert.
    + destruct Hcases as (-> & _). rewrite length_app. simpl.
      split; [done|lia].
  - intros s thr Hc Hopen.
    destruct (list_find (open_alert k s) (rows db)) as [[i a]|] eqn:Hf;
      [|by apply open_of_nil_find in Hf].
    rewrite (check_metric_found _ _ _ _ _ _ _ _ _ _ Hc Hf) in Hcheck.
    by simplify_eq.
Qed.

(** A check leaves the rows after position [n] as they are when none of
    them is of its kind, and adds the row it inserts. *)
Lemma check_metric_suffix k v th hiw now db n news :
  (n ≤ length (rows db))%nat →
  drop n (rows db) = news →
  Forall (λ a, metric_type a ≠ k) news →
  drop n (rows (check_metric_outcome k v th hiw now db).2)
  = news ++ inserted (check_metric_outcome k v th hiw now db).1 ∧
  (n ≤ length (rows (check_metric_outcome k v th hiw now db).2))%nat ∧
  Forall (λ a, metric_type a = k ∧ acknowledged a = false)
    (inserted (check_metric_outcome k v th hiw now db).1).
Proof.
  intros Hn Hdrop Hnews.
  pose proof (check_metric_cases k v th hiw now db) as Hcases.
  destruct (check_metric_outcome k v th hiw now db).1 as [|existing_id|c];
    simpl.
  - rewrite Hcases, app_nil_r. by split_and!.
  - destruct Hcases as (i & a & Hi & _ & Hk & _ & _ & -> & _).
    rewrite app_nil_r, length_insert. split_and!; [|done..].
    rewrite drop_insert_lt; [done|].
    destruct (decide (i < n)%nat) as [|Hge]; [done|].
    assert (Ha : a ∈ news).
    { rewrite <- Hdrop. apply list_elem_of_lookup. exists (i - n)%nat.
      rewrite lookup_drop. by replace (n + (i - n))%nat with i by lia. }
    rewrite Forall_forall in Hnews. by destruct (Hnews a Ha).
  - destruct Hcases as (-> & _ & _ & Hk & Hack & _).
    rewrite drop_app_le, Hdrop, length_app by done.
    split_and!; [done|lia|]. by repeat constructor.
Qed.

(** The rows after the old ones are the returned ones. *)
Lemma evaluation_suffix metrics nows db :
  drop (length (rows db)) (rows (check_and_create_alerts metrics nows db).2)
  = (check_and_create_alerts metrics nows db).1 ∧
  (length (rows db)
   ≤ length (rows (check_and_create_alerts metrics nows db).2))%nat ∧
  (length (check_and_create_alerts metrics nows db).1 ≤ 4)%nat ∧
  Forall (λ a, acknowledged a = false)
    (check_and_create_alerts metrics nows db).1.
Proof.
  rewrite evaluate_steps. cbv zeta.
  set (n := length (rows db)).
  destruct (check_metric_suffix "cpu" (cpu_usage_percent metrics)
              (THRESHOLDS cpu) true (nows cpu) db n [])
    as (D1 & N1 & F1); [done|by apply drop_ge|done|].
  rewrite app_nil_l in D1.
  set (r1 := check_metric_outcome "cpu" _ _ _ _ db) in *.
  destruct (check_metric_suffix "memory" (memory_usage_percent metrics)
              (THRESHOLDS memory) true (nows memory) r1.2 n _ N1 D1)
    as (D2 & N2 & F2).
  { eapply Forall_impl; [exact F1|]. simpl. intros a [-> _]. done. }
  set (r2 := check_metric_outcome "memory" _ _ _ _ r1.2) in *.
  destruct (check_metric_suffix "disk" (disk_usage_percent metrics)
              (THRESHOLDS disk) true (nows disk) r2.2 n _ N2 D2)
    as (D3 & N3 & F3).
  { apply Forall_app. split;
      (eapply Forall_impl; [eassumption|]); simpl; by intros a [-> _]. }
  set (r3 := check_metric_outcome "disk" _ _ _ _ r2.2) in *.
  assert (L1 : (length (inserted r1.1) ≤ 1)%nat)
    by (destruct r1.1; simpl; lia).
  assert (L2 : (length (inserted r2.1) ≤ 1)%nat)
    by (destruct r2.1; simpl; lia).
  assert (L3 : (length (inserted r3.1) ≤ 1)%nat)
    by (destruct r3.1; simpl; lia).
  assert (Hthree :
    drop n (rows r3.2) = inserted r1.1 ++ inserted r2.1 ++ inserted r3.1 ∧
    (n ≤ length (rows r3.2))%nat ∧
    (length (inserted r1.1 ++ inserted r2.1 ++ inserted r3.1) ≤ 4)%nat ∧
    Forall (λ a, acknowledged a = false)
      (inserted r1.1 ++ inserted r2.1 ++ inserted r3.1)).
  { split_and!; [by rewrite D3, <- app_assoc|done|..].
    - rewrite !length_app. lia.
    - rewrite !Forall_app. split_and!;
        (eapply Forall_impl; [eassumption|]); simpl; by intros a [_ ?]. }
  destruct (battery_reading metrics) as [b|]; [|done].
  destruct (truthy (is_plugged b)); [done|].
  destruct (check_metric_suffix "battery" (percent b)
              (THRESHOLDS battery) false (nows battery) r3.2 n _ N3 D3)
    as (D4 & N4 & F4).
  { rewrite !Forall_app. split_and!;
      (eapply Forall_impl; [eassumption|]); simpl; by intros a [-> _]. }
  set (r4 := check_metric_outcome "battery" _ _ _ _ r3.2) in *.
  assert (L4 : (length (inserted r4.1) ≤ 1)%nat)
    by (destruct r4.1; simpl; lia).
  cbn [fst snd]. split_and!; [by rewrite D4, <- !app_assoc|done|..].
  - rewrite !length_app. lia.
  - rewrite !Forall_app. split_and!;
      (eapply Forall_impl; [eassumption|]); simpl; by intros a [_ ?].
Qed.

(** X13. The list [check_and_create_alerts] returns is the list of the
    rows it appended to the table, in table order: the table grows by
    exactly these rows, at most four of them, all unacknowledged. *)
Theorem evaluation_returns_appended_rows metrics nows db :
  drop (length (rows db)) (rows (check_and_create_alerts metrics nows db).2)
  = (check_and_create_alerts metrics nows db).1 ∧
  length (rows (check_and_create_alerts metrics nows db).2)
  = (length (rows db)
     + length (check_and_create_alerts metrics nows db).1)%nat ∧
  (length (check_and_create_alerts metrics nows db).1 ≤ 4)%nat ∧
  Forall (λ a, acknowledged a = false)
    (check_and_create_alerts metrics nows db).1.
Proof.
  destruct (evaluation_suffix metrics nows db) as (Hdrop & Hle & Hfour & Hack).
  split_and!; try done.
  rewrite <- Hdrop, length_drop. lia.
Qed.

End evaluations.

Section quiet_and_repeated.
Context `{FloatFormat}.
Implicit Types (k : string) (v : Q) (th : Thresholds) (db : Store).

Lemma check_metric_commits k v th hiw now db :
  commits (check_metric_outcome k v th hiw now db).2
  = (commits db + match crossed v th hiw with Some _ => 1 | None => 0 end)%nat.
Proof.
  unfold check_metric_outcome.
  destruct (crossed v th hiw) as [[s thr]|]; [|simpl; lia].
  destruct (list_find _ (rows db)) as [[i a]|]; simpl; lia.
Qed.

(** X14. An evaluation leaves the store exactly as it was if and only if
    the record is quiet: cpu, memory and disk below their warning levels
    and the battery absent, plugged in or above its warning level.  It
    then returns no alert. *)
Theorem quiet_record_changes_nothing metrics nows db :
  ((check_and_create_alerts metrics nows db).2 = db ↔ quiet metrics) ∧
  (quiet metrics → check_and_create_alerts metrics nows db = ([], db)).
Proof.
  assert (Hquiet : quiet metrics →
                   check_and_create_alerts metrics nows db = ([], db)).
  { intros (Hc & Hm & Hd & Hb). rewrite evaluate_steps. cbv zeta.
    rewrite (check_metric_none "cpu") by by apply (crossed_none_iff cpu).
    cbn [fst snd].
    rewrite (check_metric_none "memory") by by apply (crossed_none_iff memory).
    cbn [fst snd].
    rewrite (check_metric_none "disk") by by apply (crossed_none_iff disk).
    cbn [fst snd].
    destruct (battery_reading metrics) as [b|]; [|done].
    destruct (truthy (is_plugged b)); [done|].
    destruct Hb as [|Hb]; [done|].
    by rewrite (check_metric_none "battery")
      by by apply (crossed_none_iff battery). }
  split; [|done]. split; [|by intros ->%Hquiet].
  intros Hsame. apply (f_equal commits) in Hsame.
  rewrite evaluate_steps in Hsame. cbv zeta in Hsame.
  pose proof (check_metric_commits "cpu" (cpu_usage_percent metrics)
                (THRESHOLDS cpu) true (nows cpu) db) as C1.
  set (r1 := check_metric_outcome "cpu" _ _ _ _ db) in *.
  pose proof (check_metric_commits "memory" (memory_usage_percent metrics)
                (THRESHOLDS memory) true (nows memory) r1.2) as C2.
  set (r2 := check_metric_outcome "memory" _ _ _ _ r1.2) in *.
  pose proof (check_metric_commits "disk" (disk_usage_percent metrics)
                (THRESHOLDS disk) true (nows disk) r2.2) as C3.
  set (r3 := check_metric_outcome "disk" _ _ _ _ r2.2) in *.
  pose proof (crossed_none_iff cpu (cpu_usage_percent metrics)) as Q1.
  pose proof (crossed_none_iff memory (memory_usage_percent metrics)) as Q2.
  pose proof (crossed_none_iff disk (disk_usage_percent metrics)) as Q3.
  cbn [higher_is_worse] in Q1, Q2, Q3.
  unfold quiet.
  destruct (battery_reading metrics) as [b|].
  - destruct (truthy (is_plugged b)) eqn:Hp; cbn [snd] in Hsame.
    + destruct (crossed (cpu_usage_percent metrics) _ _),
        (crossed (memory_usage_percent metrics) _ _),
        (crossed (disk_usage_percent metrics) _ _); try lia.
      split_and!; [by apply Q1|by apply Q2|by apply Q3|by left].
    + pose proof (check_metric_commits "battery" (percent b)
                    (THRESHOLDS battery) false (nows battery) r3.2) as C4.
      pose proof (crossed_none_iff battery (percent b)) as Q4.
      cbn [higher_is_worse] in Q4.
      destruct (crossed (cpu_usage_percent metrics) _ _),
        (crossed (memory_usage_percent metrics) _ _),
        (crossed (disk_usage_percent metrics) _ _),
        (crossed (percent b) _ _); try lia.
      split_and!; [by apply Q1|by apply Q2|by apply Q3|right; by apply Q4].
  - cbn [snd] in Hsame.
    destruct (crossed (cpu_usage_percent metrics) _ _),
      (crossed (memory_usage_percent metrics) _ _),
      (crossed (disk_usage_percent metrics) _ _); try lia.
    split_and!; [by apply Q1|by apply Q2|by apply Q3|done].
Qed.

Lemma open_of_other_kind k k' s v th hiw now db :
  k' ≠ k →
  open_of k s (check_metric_outcome k' v th hiw now db).2 = open_of k s db.
Proof.
  intros Hk. unfold open_of.
  assert (Hsplit : ∀ l : list Alert,
    filter (open_alert k s) l
    = filter (λ a, severity a = s ∧ acknowledged a = false)
        (filter (λ a, metric_type a = k) l)).
  { intros l. rewrite list_filter_filter. apply list_filter_iff.
    intros a. unfold open_alert. tauto. }
  by rewrite !Hsplit, check_metric_other_kind.
Qed.

Lemma check_metric_covers k v th hiw now db s thr :
  crossed v th hiw = Some (s, thr) →
  open_of k s (check_metric_outcome k v th hiw now db).2 ≠ [].
Proof.
  intros Hc Hnil.
  destruct (list_find (open_alert k s) (rows db)) as [[i a]|] eqn:Hf.
  - rewrite (check_metric_found _ _ _ _ _ _ _ _ _ _ Hc Hf) in Hnil.
    pose proof Hf as (Hi & Ha & _)%list_find_Some.
    eapply (filter_nil_not_elem_of _ _ (refresh a v now)); [exact Hnil|done|].
    cbn [snd]. rewrite rows_refreshed.
    eapply list_elem_of_lookup_2, list_lookup_insert_eq.
    by eapply lookup_lt_Some.
  - rewrite (check_metric_fresh _ _ _ _ _ _ _ _ Hc Hf) in Hnil.
    unfold open_of in Hnil. cbn [snd] in Hnil.
    rewrite rows_added, filter_app, filter_cons_True in Hnil by done.
    by destruct (filter _ (rows db)).
Qed.

Lemma covered_inserts_nothing k v th hiw now db :
  (∀ s thr, crossed v th hiw = Some (s, thr) → open_of k s db ≠ []) →
  inserted (check_metric_outcome k v th hiw now db).1 = [] ∧
  length (rows (check_metric_outcome k v th hiw now db).2) = length (rows db).
Proof.
  intros Hcov. destruct (crossed v th hiw) as [[s thr]|] eqn:Hc.
  - destruct (list_find (open_alert k s) (rows db)) as [[i a]|] eqn:Hf.
    + rewrite (check_metric_found _ _ _ _ _ _ _ _ _ _ Hc Hf). simpl.
      by rewrite length_insert.
    + apply open_of_nil_find in Hf. by destruct (Hcov s thr).
  - by rewrite check_metric_none.
Qed.

(** X15. Evaluating the same record a second time, at any later
    instants, creates nothing: the second evaluation returns no alert
    and the table keeps its length.  A sustained violation refreshes the
    open alerts and does not add rows. *)
Theorem repeated_evaluation_creates_nothing metrics nows nows' db :
  (check_and_create_alerts metrics nows'
     (check_and_create_alerts metrics nows db).2).1 = [] ∧
  length (rows (check_and_create_alerts metrics nows'
                  (check_and_create_alerts metrics nows db).2).2)
  = length (rows (check_and_create_alerts metrics nows db).2).
Proof.
  rewrite (evaluate_steps metrics nows db). cbv zeta.
  set (a1 := check_metric_outcome "cpu" _ _ _ _ db).
  set (a2 := check_metric_outcome "memory" _ _ _ _ a1.2).
  set (a3 := check_metric_outcome "disk" _ _ _ _ a2.2).
  assert (K1 : ∀ s thr,
    crossed (cpu_usage_percent metrics) (THRESHOLDS cpu) true = Some (s, thr) →
    open_of "cpu" s a3.2 ≠ []).
  { intros s thr Hc. unfold a3, a2.
    rewrite !open_of_other_kind by done. by eapply check_metric_covers. }
  assert (K2 : ∀ s thr,
    crossed (memory_usage_percent metrics) (THRESHOLDS memory) true
    = Some (s, thr) →
    open_of "memory" s a3.2 ≠ []).
  { intros s thr Hc. unfold a3.
    rewrite !open_of_other_kind by done. by eapply check_metric_covers. }
  assert (K3 : ∀ s thr,
    crossed (disk_usage_percent metrics) (THRESHOLDS disk) true
    = Some (s, thr) →
    open_of "disk" s a3.2 ≠ []).
  { intros s thr Hc. by eapply check_metric_covers. }
  assert (Hthree : ∀ d,
    (∀ s, open_of "cpu" s d = open_of "cpu" s a3.2) →
    (∀ s, open_of "memory" s d = open_of "memory" s a3.2) →
    (∀ s, open_of "disk" s d = open_of "disk" s a3.2) →
    let b1 := check_metric_outcome "cpu" (cpu_usage_percent metrics)
                (THRESHOLDS cpu) true (nows' cpu) d in
    let b2 := check_metric_outcome "memory" (memory_usage_percent metrics)
                (THRESHOLDS memory) true (nows' memory) b1.2 in
    let b3 := check_metric_outcome "disk" (disk_usage_percent metrics)
                (THRESHOLDS disk) true (nows' disk) b2.2 in
    inserted b1.1 ++ inserted b2.1 ++ inserted b3.1 = [] ∧
    length (rows b3.2) = length (rows d) ∧
    ∀ s, open_of "battery" s b3.2 = open_of "battery" s d).
  { intros d E1 E2 E3 b1 b2 b3.
    destruct (covered_inserts_nothing "cpu" (cpu_usage_percent metrics)
                (THRESHOLDS cpu) true (nows' cpu) d) as [I1 L1].
    { intros s thr Hc. rewrite E1. by eapply K1. }
    destruct (covered_inserts_nothing "memory" (memory_usage_percent metrics)
                (THRESHOLDS memory) true (nows' memory) b1.2) as [I2 L2].
    { intros s thr Hc. unfold b1. rewrite open_of_other_kind by done.
      rewrite E2. by eapply K2. }
    destruct (covered_inserts_nothing "disk" (disk_usage_percent metrics)
                (THRESHOLDS disk) true (nows' disk) b2.2) as [I3 L3].
    { intros s thr Hc. unfold b2, b1. rewrite !open_of_other_kind by done.
      rewrite E3. by eapply K3. }
    fold b1 in I1, L1. fold b2 in I2, L2. fold b3 in I3, L3.
    rewrite I1, I2, I3. split_and!; [done|congruence|].
    intros s. unfold b3, b2, b1. by rewrite !open_of_other_kind. }
  destruct (battery_reading metrics) as [b|] eqn:Hb.
  - destruct (truthy (is_plugged b)) eqn:Hp; cbn [snd].
    + rewrite evaluate_steps, Hb, Hp. cbv zeta. cbn [fst snd].
      destruct (Hthree a3.2) as (I & L & _); [done..|].
      cbv zeta in I, L. by rewrite I, L.
    + set (a4 := check_metric_outcome "battery" _ _ _ _ a3.2).
      rewrite evaluate_steps, Hb, Hp. cbv zeta.
      destruct (Hthree a4.2) as (I & L & E4);
        [intros s; unfold a4; by rewrite open_of_other_kind..|].
      cbv zeta in I, L, E4. cbn [fst snd].
      destruct (covered_inserts_nothing "battery" (percent b)
                  (THRESHOLDS battery) false (nows' battery)
                  (check_metric_outcome "disk" (disk_usage_percent metrics)
                     (THRESHOLDS disk) true (nows' disk)
                     (check_metric_outcome "memory"
                        (memory_usage_percent metrics) (THRESHOLDS memory)
                        true (nows' memory)
                        (check_metric_outcome "cpu"
                           (cpu_usage_percent metrics) (THRESHOLDS cpu) true
                           (nows' cpu) a4.2).2).2).2) as [I4 L4].
      { intros s thr Hc. rewrite E4. by eapply check_metric_covers. }
      rewrite I4, L4, L.
      apply app_eq_nil in I as [-> [-> ->]%app_eq_nil]. done.
  - cbn [snd]. rewrite evaluate_steps, Hb. cbv zeta. cbn [fst snd].
    destruct (Hthree a3.2) as (I & L & _); [done..|].
    cbv zeta in I, L. by rewrite I, L.
Qed.

End quiet_and_repeated.

(** ** The job when nothing fails, and the session of an endpoint *)

Section host_tick.
Context `{FloatFormat}.



End host_tick.

Section sessions.
Context `{FloatFormat} `{Collaborators Env}.
Implicit Types (w : World Env) (e : Exn).

(** X17. An endpoint that runs with the session of [get_db] gives its own
    result to the caller, a value or the exception it raised, and in
    both cases the session is closed afterwards; [get_db] itself prints
    nothing and rolls nothing back. *)
Theorem get_db_closes_session {A} (endpoint : Proc Env A) w :
  (get_db endpoint w).1 = (endpoint (SessionLocal w).2).1 ∧
  closed (get_db endpoint w).2 = true ∧
  pending (get_db endpoint w).2 = [] ∧
  calls (get_db endpoint w).2
  = calls (endpoint (SessionLocal w).2).2 ++ [CallClose] ∧
  stdout (get_db endpoint w).2 = stdout (endpoint (SessionLocal w).2).2 ∧
  env (get_db endpoint w).2 = env (endpoint (SessionLocal w).2).2.
Proof.
  unfold get_db, try_finally. unfold mbind, Proc_bind. simpl.
  by destruct (endpoint _) as [r w1].
Qed.

End sessions.

(** ** Arithmetic of the collector *)

Lemma Qfloor_div_pos (x : Q) (n : positive) :
  Qfloor (x / inject_Z (Zpos n)) = Qfloor x / Zpos n.
Proof.
  destruct x as [p q]. unfold Qdiv, Qmult, Qinv, inject_Z, Qfloor. simpl.
  rewrite Z.mul_1_r, Pos2Z.inj_mul, Z.div_div by lia. done.
Qed.

Lemma Qfloor_sub_mul (x : Q) (n k : Z) :
  Qfloor (x - inject_Z n * inject_Z k) = Qfloor x - n * k.
Proof.
  destruct x as [p q]. unfold Qminus, Qplus, Qopp, Qmult, inject_Z, Qfloor.
  cbn [Qnum Qden]. rewrite !Pos.mul_1_r, Z.mul_1_r.
  replace (p + - (n * k) * Z.pos q) with (p + (- (n * k)) * Z.pos q) by lia.
  rewrite Z.div_add by lia. lia.
Qed.

Lemma py_int_inject_Z (z : Z) : py_int (inject_Z z) = z.
Proof.
  unfold py_int. rewrite Qfloor_Z, Qceiling_Z. by destruct (0 <=? _).
Qed.

Lemma py_int_nonneg (x : Q) : (0 <= x)%Q → py_int x = Qfloor x ∧ 0 ≤ Qfloor x.
Proof.
  destruct x as [p q]. unfold Qle, py_int, Qfloor. simpl. intros Hp.
  rewrite (proj2 (Z.leb_le 0 p)) by lia.
  split; [done|]. apply Z.div_pos; lia.
Qed.

(** The fields of [uptime] in integer arithmetic on the whole seconds. *)
Lemma uptime_fields (x : Q) :
  uptime_days (uptime x) = Qfloor x / 86400 ∧
  uptime_hours (uptime x) = (Qfloor x - 86400 * (Qfloor x / 86400)) / 3600 ∧
  uptime_minutes (uptime x) = (Qfloor x - 3600 * (Qfloor x / 3600)) / 60.
Proof.
  unfold uptime, py_floordiv, py_mod. cbn [uptime_days uptime_hours uptime_minutes].
  rewrite !py_int_inject_Z, !Qfloor_div_pos, !Qfloor_sub_mul, ?Qfloor_div_pos.
  done.
Qed.

(** X18. For an uptime that is not negative, the entry that
    [get_system_info] reports is consistent: the days are not negative,
    the hours are between 0 and 23, the minutes between 0 and 59,
    [total_seconds] is the uptime rounded down, and days, hours and
    minutes together account for it up to less than a minute. *)
Theorem uptime_consistent (x : Q) :
  (0 <= x)%Q →
  0 ≤ uptime_days (uptime x) ∧
  0 ≤ uptime_hours (uptime x) < 24 ∧
  0 ≤ uptime_minutes (uptime x) < 60 ∧
  uptime_total_seconds (uptime x) = Qfloor x ∧
  0 ≤ uptime_total_seconds (uptime x)
      - (86400 * uptime_days (uptime x) + 3600 * uptime_hours (uptime x)
         + 60 * uptime_minutes (uptime x)) < 60.
Proof.
  intros Hx. destruct (py_int_nonneg x Hx) as [Hint Hpos].
  destruct (uptime_fields x) as (-> & -> & ->).
  change (uptime_total_seconds (uptime x)) with (py_int x).
  rewrite Hint. generalize dependent (Qfloor x). intros T _ HT.
  Z.to_euclidean_division_equations. lia.
Qed.

Lemma round_compare (n f : Z) :
  (inject_Z n / inject_Z 60 - inject_Z f ?= 1 # 2)%Q
  = (2 * (n - 60 * f) ?= 60).
Proof.
  unfold Qcompare, Qminus, Qplus, Qopp, Qdiv, Qmult, Qinv, inject_Z.
  cbn [Qnum Qden].
  change (Z.pos (1 * 60)) with 60. change (Z.pos (1 * 60 * 1)) with 60.
  f_equal; lia.
Qed.

Lemma py_round_sixtieths (n : Z) :
  py_round (inject_Z n / inject_Z 60)
  = match 2 * (n - 60 * (n / 60)) ?= 60 with
    | Lt => n / 60
    | Gt => n / 60 + 1
    | Eq => if Z.even (n / 60) then n / 60 else n / 60 + 1
    end.
Proof.
  unfold py_round. rewrite Qfloor_div_pos, Qfloor_Z. cbv zeta.
  by rewrite round_compare.
Qed.

(** X19. [get_battery_metrics] passes the percentage and the plugged flag
    through and reports the remaining time in whole minutes: nothing when
    [secsleft] is zero or negative (psutil's markers for unknown and
    unlimited are negative), otherwise the number of minutes nearest to
    [secsleft / 60], which is never negative, and the even one of the
    two when [secsleft] lies halfway. *)
Theorem battery_time_remaining (sb : sbattery) :
  ∃ b,
    get_battery_metrics (Some sb) = Some b ∧
    bm_percent b = sb_percent sb ∧
    bm_is_plugged b = sb_power_plugged sb ∧
    (sb_secsleft sb ≤ 0 → bm_time_remaining_mins b = None) ∧
    (0 < sb_secsleft sb →
     ∃ m, bm_time_remaining_mins b = Some m ∧ 0 ≤ m ∧
          -30 ≤ 60 * m - sb_secsleft sb ≤ 30 ∧
          (sb_secsleft sb mod 60 = 30 → Z.even m = true)).
Proof.
  eexists. split; [reflexivity|]. cbn [bm_percent bm_is_plugged
    bm_time_remaining_mins]. split_and!; [done..| |].
  - intros Hle. by rewrite (proj2 (Z.ltb_ge 0 _)).
  - intros Hpos. rewrite (proj2 (Z.ltb_lt 0 _)) by done.
    eexists. split; [reflexivity|].
    rewrite py_round_sixtieths. generalize dependent (sb_secsleft sb).
    intros n Hn.
    destruct (Z.compare_spec (2 * (n - 60 * (n / 60))) 60) as [Heq|Hlt|Hgt].
    + destruct (Z.even (n / 60)) eqn:Heven;
        (split_and!; try (Z.to_euclidean_division_equations; lia));
        intros _; [done|].
      rewrite Z.add_1_r, Z.even_succ, <- Z.negb_even. by rewrite Heven.
    + split_and!; Z.to_euclidean_division_equations; lia.
    + split_and!; Z.to_euclidean_division_equations; lia.
Qed.

(** ** Battery: from the sensor to the alert *)

Section battery_pipeline.
Context `{FloatFormat}.

(** X20. A battery that the sensor does not report as plugged in ([False]
    or undetermined) and whose percentage is at or below the warning
    level is checked and alerts: the last check of the evaluation is the
    battery check, its outcome is not [NoChange], and afterwards an
    unacknowledged battery alert is open.  Without a battery sensor
    there is no battery dict, the evaluation checks cpu, memory and disk
    only and leaves the battery rows alone. *)
Theorem battery_from_sensor_to_alert metrics nows db :
  (∀ sb b,
     get_battery_metrics (Some sb) = Some b →
     battery_reading metrics = Some (battery_for_alerts b) →
     sb_power_plugged sb ≠ Some true →
     (sb_percent sb <= inject_Z (warning (THRESHOLDS battery)))%Q →
     ∃ o s,
       last (check_and_create_alerts_outcomes metrics nows db).1
       = Some (battery, o) ∧
       o ≠ NoChange ∧
       open_of "battery" s (check_and_create_alerts_outcomes metrics nows db).2
       ≠ []) ∧
  (battery_reading metrics = battery_for_alerts <$> get_battery_metrics None →
   (check_and_create_alerts_outcomes metrics nows db).1.*1
   = [cpu; memory; disk] ∧
   filter (λ a, metric_type a = "battery")
     (rows (check_and_create_alerts_outcomes metrics nows db).2)
   = filter (λ a, metric_type a = "battery") (rows db)).
Proof.
  split.
  - intros sb b [= <-] Hb Hplug Hlow.
    unfold check_and_create_alerts_outcomes. rewrite Hb.
    cbn [battery_for_alerts is_plugged percent bm_is_plugged bm_percent].
    assert (truthy (sb_power_plugged sb) = false) as ->
      by by destruct (sb_power_plugged sb) as [[]|].
    cbn [negb].
    destruct (check_metric_outcome "cpu" _ _ _ _ db) as [o1 db1].
    destruct (check_metric_outcome "memory" _ _ _ _ db1) as [o2 db2].
    destruct (check_metric_outcome "disk" _ _ _ _ db2) as [o3 db3].
    destruct (crossed (sb_percent sb) (THRESHOLDS battery) false)
      as [[s thr]|] eqn:Hc.
    + pose proof (outcome_follows_crossed "battery" _ _ _ (nows battery) db3
                    _ _ Hc) as Ho.
      pose proof (check_metric_covers "battery" _ _ _ (nows battery) db3
                    _ _ Hc) as Hopen.
      destruct (check_metric_outcome "battery" _ _ _ _ db3) as [o4 db4].
      exists o4, s. cbn [fst snd] in *. split_and!; [done| |done].
      by intros ->.
    + apply (crossed_none_iff battery) in Hc. cbn [higher_is_worse] in Hc.
      by apply Qlt_not_le in Hc.
  - cbn [get_battery_metrics fmap option_fmap option_map]. intros Hb.
    unfold check_and_create_alerts_outcomes. rewrite Hb.
    pose proof (check_metric_other_kind "cpu" "battery"
      (cpu_usage_percent metrics) (THRESHOLDS cpu) true (nows cpu) db) as H1.
    destruct (check_metric_outcome "cpu" _ _ _ _ db) as [o1 db1].
    pose proof (check_metric_other_kind "memory" "battery"
      (memory_usage_percent metrics) (THRESHOLDS memory) true (nows memory)
      db1) as H2.
    destruct (check_metric_outcome "memory" _ _ _ _ db1) as [o2 db2].
    pose proof (check_metric_other_kind "disk" "battery"
      (disk_usage_percent metrics) (THRESHOLDS disk) true (nows disk)
      db2) as H3.
    destruct (check_metric_outcome "disk" _ _ _ _ db2) as [o3 db3].
    simpl in *. split; [done|]. rewrite H3, H2, H1; done.
Qed.

End battery_pipeline.

(** ** The top processes *)

Section top_processes.
Context {A : Type} (key : A → Q).

Lemma insert_desc_perm (x : A) (l : list A) : insert_desc key x l ≡ₚ x :: l.
Proof.
  induction l as [|y l IH]; [done|]. simpl.
  destruct (Qle_bool (key y) (key x)); [done|].
  rewrite IH. apply Permutation_swap.
Qed.

Lemma sorted_desc_perm (l : list A) : sorted_desc key l ≡ₚ l.
Proof.
  induction l as [|x l IH]; [done|].
  simpl. by rewrite insert_desc_perm, IH.
Qed.

Lemma insert_desc_sorted (x : A) (l : list A) :
  StronglySorted (key_desc key) l → StronglySorted (key_desc key) (insert_desc key x l).
Proof.
  induction 1 as [|y l Hl IH Hy]; simpl; [by repeat constructor|].
  destruct (Qle_bool (key y) (key x)) eqn:Hle.
  - apply Qle_bool_true in Hle.
    constructor; [by constructor|]. constructor; [done|].
    eapply Forall_impl; [exact Hy|]. unfold key_desc. intros z Hz.
    by apply (Qle_trans _ (key y)).
  - apply Qle_bool_false in Hle. constructor; [done|].
    rewrite insert_desc_perm. constructor; [|done].
    by apply Qlt_le_weak.
Qed.

Lemma sorted_desc_sorted (l : list A) :
  StronglySorted (key_desc key) (sorted_desc key l).
Proof.
  induction l as [|x l IH]; [constructor|].
  simpl. by apply insert_desc_sorted.
Qed.

Lemma top_slice (limit : Z) (l : list A) :
  ∃ rest,
    slice_to limit (sorted_desc key l) ++ rest ≡ₚ l ∧
    (∀ x y, x ∈ slice_to limit (sorted_desc key l) → y ∈ rest →
            (key y <= key x)%Q) ∧
    (∀ i j x y,
       slice_to limit (sorted_desc key l) !! i = Some x →
       slice_to limit (sorted_desc key l) !! j = Some y →
       (i < j)%nat → (key y <= key x)%Q) ∧
    length (slice_to limit (sorted_desc key l))
    = if 0 <=? limit then (Z.to_nat limit `min` length l)%nat
      else (length l - Z.to_nat (- limit))%nat.
Proof.
  pose proof (sorted_desc_sorted l) as Hs.
  pose proof (sorted_desc_perm l) as Hp.
  assert (Hlen : length (sorted_desc key l) = length l)
    by by rewrite Hp.
  assert (Hn : ∃ n,
    slice_to limit (sorted_desc key l) = take n (sorted_desc key l) ∧
    (n `min` length l)%nat
    = if 0 <=? limit then (Z.to_nat limit `min` length l)%nat
      else (length l - Z.to_nat (- limit))%nat).
  { unfold slice_to. destruct (0 <=? limit); eexists; (split; [done|]); lia. }
  destruct Hn as (n & -> & Hmin).
  exists (drop n (sorted_desc key l)).
  rewrite <- (take_drop n (sorted_desc key l)) in Hs.
  split_and!.
  - by rewrite take_drop.
  - intros x y Hx Hy.
    by apply (StronglySorted_app_1_elem_of (key_desc key) _ _ x y Hs).
  - intros i j x y Hi Hj Hlt.
    apply StronglySorted_app_1_l in Hs.
    rewrite <- (take_drop_middle _ i x Hi) in Hs, Hj.
    apply StronglySorted_app_1_r, StronglySorted_cons in Hs as [Hall _].
    rewrite lookup_app_r in Hj by (rewrite length_take; lia).
    rewrite length_take_le in Hj by (apply lookup_lt_Some in Hi; lia).
    destruct (j - i)%nat as [|m] eqn:Hm; [lia|]. simpl in Hj.
    rewrite Forall_lookup in Hall. by apply (Hall m y).
  - rewrite length_take, Hlen. done.
Qed.

End top_processes.

(** X21. [get_top_processes] counts the processes whose info could be
    read, and each of its two lists is a real top list: its entries are
    entries of [processes], in descending order of the key (cpu, or
    memory), and every entry left out has a key no larger than every
    entry in it.  For a [limit] that is not negative a list holds
    [limit] entries, or all of them when there are fewer; a negative
    [limit] leaves out that many entries at the low end. *)
Theorem top_processes_are_top `{Round2} (limit : Z)
    (procs : list (option ProcInfo)) :
  total_count (get_top_processes limit procs)
  = length (omap (λ p, p) procs) ∧
  (∃ rest,
     top_by_cpu (get_top_processes limit procs) ++ rest
       ≡ₚ proc_entry <$> omap (λ p, p) procs ∧
     ∀ x y, x ∈ top_by_cpu (get_top_processes limit procs) → y ∈ rest →
            (cpu_percent y <= cpu_percent x)%Q) ∧
  (∃ rest,
     top_by_memory (get_top_processes limit procs) ++ rest
       ≡ₚ proc_entry <$> omap (λ p, p) procs ∧
     ∀ x y, x ∈ top_by_memory (get_top_processes limit procs) → y ∈ rest →
            (memory_percent y <= memory_percent x)%Q) ∧
  (∀ i j x y,
     top_by_cpu (get_top_processes limit procs) !! i = Some x →
     top_by_cpu (get_top_processes limit procs) !! j = Some y →
     (i < j)%nat → (cpu_percent y <= cpu_percent x)%Q) ∧
  (∀ i j x y,
     top_by_memory (get_top_processes limit procs) !! i = Some x →
     top_by_memory (get_top_processes limit procs) !! j = Some y →
     (i < j)%nat → (memory_percent y <= memory_percent x)%Q) ∧
  length (top_by_cpu (get_top_processes limit procs))
  = (if 0 <=? limit
     then (Z.to_nat limit `min` total_count (get_top_processes limit procs))%nat
     else (total_count (get_top_processes limit procs)
           - Z.to_nat (- limit))%nat) ∧
  length (top_by_memory (get_top_processes limit procs))
  = length (top_by_cpu (get_top_processes limit procs)).
Proof.
  unfold get_top_processes. cbn [total_count top_by_cpu top_by_memory].
  set (processes := proc_entry <$> omap (λ p, p) procs).
  destruct (top_slice cpu_percent limit processes) as (rc & Pc & Tc & Sc & Lc).
  destruct (top_slice memory_percent limit processes)
    as (rm & Pm & Tm & Sm & Lm).
  split_and!; try done.
  - unfold processes. by rewrite length_fmap.
  - by exists rc.
  - by exists rm.
  - by rewrite Lm, Lc.
Qed.

Section stability.
Context {A : Type} (key : A → Q) (c : Q).

Lemma filter_insert_desc (x : A) (l : list A) :
  filter (λ a, (key a == c)%Q) (insert_desc key x l)
  = filter (λ a, (key a == c)%Q) (x :: l).
Proof.
  induction l as [|y l IH]; [done|]. simpl.
  destruct (Qle_bool (key y) (key x)) eqn:Hle; [done|].
  apply Qle_bool_false in Hle.
  rewrite filter_cons, IH, !filter_cons.
  destruct (decide (key x == c)%Q) as [Hx|Hx],
    (decide (key y == c)%Q) as [Hy|Hy]; try done.
  rewrite Hx, Hy in Hle. by apply Qlt_irrefl in Hle.
Qed.

Lemma filter_sorted_desc (l : list A) :
  filter (λ a, (key a == c)%Q) (sorted_desc key l)
  = filter (λ a, (key a == c)%Q) l.
Proof.
  induction l as [|x l IH]; [done|].
  simpl. by rewrite filter_insert_desc, !filter_cons, IH.
Qed.

Lemma filter_slice_prefix (limit : Z) (l : list A) :
  filter (λ a, (key a == c)%Q) (slice_to limit (sorted_desc key l))
    `prefix_of` filter (λ a, (key a == c)%Q) l.
Proof.
  rewrite <- (filter_sorted_desc l).
  assert (Hn : ∃ n, slice_to limit (sorted_desc key l)
                    = take n (sorted_desc key l)).
  { unfold slice_to. destruct (0 <=? limit); eauto. }
  destruct Hn as [n ->].
  exists (filter (λ a, (key a == c)%Q) (drop n (sorted_desc key l))).
  by rewrite <- filter_app, take_drop.
Qed.

End stability.

(** X22. The top lists are stable: among the processes with the same cpu
    percentage (the same memory percentage), those that [top_by_cpu]
    ([top_by_memory]) shows are the first ones in the order in which the
    processes were met, in that order. *)
Theorem top_processes_stable `{Round2} (limit : Z)
    (procs : list (option ProcInfo)) (c : Q) :
  filter (λ e, (cpu_percent e == c)%Q)
    (top_by_cpu (get_top_processes limit procs))
    `prefix_of`
  filter (λ e, (cpu_percent e == c)%Q) (proc_entry <$> omap (λ p, p) procs) ∧
  filter (λ e, (memory_percent e == c)%Q)
    (top_by_memory (get_top_processes limit procs))
    `prefix_of`
  filter (λ e, (memory_percent e == c)%Q)
    (proc_entry <$> omap (λ p, p) procs).
Proof. split; apply filter_slice_prefix. Qed.

(** * Examples of the further properties *)

Lemma store_after_75_88_reachable : @reachable repr_tenths store_after_75_88.
Proof.
  by exists [Evaluate (reading (75 # 1)%Q) noon;
             Evaluate (reading (88 # 1)%Q) noon].
Defined.

Lemma store_after_75_reachable : @reachable repr_tenths store_after_75.
Proof. by exists [Evaluate (reading (75 # 1)%Q) noon]. Defined.


Lemma acknowledge_alert_frame_witness :
  ∃ a',
    rows (acknowledge_alert 1 store_after_75).2 = [a'] ∧
    acknowledged a' = true ∧ metric_value a' = (75 # 1)%Q.
Proof.
  destruct (acknowledge_alert_frame 1 store_after_75 eq_refl)
    as (i & a & a' & Hi & _ & _ & Hrows & _ & _ & Hack & _ & _ & _ & Hv & _).
  destruct i as [|i]; vm_compute in Hi; simplify_eq.
  exists a'. by rewrite Hrows, Hv.
Defined.

Lemma acknowledged_rows_are_final_witness :
  rows (foldl (@run_op repr_tenths) store_first_acknowledged
          [Evaluate (reading (90 # 1)%Q) noon; Acknowledge 1;
           Evaluate (reading (75 # 1)%Q) noon]) !! 0%nat
  = rows store_first_acknowledged !! 0%nat.
Proof.
  destruct (rows store_first_acknowledged !! 0%nat) as [a|] eqn:Hi;
    [|by vm_compute in Hi].
  apply (@acknowledged_rows_are_final repr_tenths); [done|].
  vm_compute in Hi. by simplify_eq.
Defined.

Lemma reachable_ids_are_positions_witness :
  ((acknowledge_alert 2 store_after_75_88).1 = true ↔ 1 ≤ 2 ≤ 2) ∧
  ((acknowledge_alert 3 store_after_75_88).1 = true ↔ 1 ≤ 3 ≤ 2).
Proof.
  split;
    apply (proj2 (@reachable_ids_are_positions repr_tenths store_after_75_88
                    store_after_75_88_reachable)).
Defined.

Lemma reachable_rows_justified_witness :
  Forall (λ a, ∃ k, metric_type a = kind_str k ∧
                    crossed (metric_value a) (THRESHOLDS k) (higher_is_worse k)
                    = Some (severity a, threshold_value a))
    (rows store_after_75_88).
Proof.
  apply Forall_forall. intros a Ha.
  destruct (@reachable_rows_justified repr_tenths store_after_75_88 a
              store_after_75_88_reachable Ha) as (k & Hk & Hc & _).
  by exists k.
Defined.

Lemma get_active_alerts_spec_witness :
  ∃ a b,
    get_active_alerts store_after_75_88 !! 0%nat = Some a ∧
    get_active_alerts store_after_75_88 !! 1%nat = Some b ∧
    timestamp b ≤ timestamp a ∧
    length (get_active_alerts store_first_acknowledged) = 1%nat.
Proof.
  destruct (get_active_alerts store_after_75_88 !! 0%nat) as [a|] eqn:Ha;
    [|by vm_compute in Ha].
  destruct (get_active_alerts store_after_75_88 !! 1%nat) as [b|] eqn:Hb;
    [|by vm_compute in Hb].
  exists a, b. split_and!; [done..| |].
  - apply (proj2 (proj2 (get_active_alerts_spec store_after_75_88))
             0%nat 1%nat a b Ha Hb). lia.
  - rewrite (proj1 (get_active_alerts_spec store_first_acknowledged)).
    reflexivity.
Defined.

Lemma get_alert_history_spec_witness :
  is_datetime 0 ∧
  get_alert_history 20000000 0 store_first_acknowledged = inl OverflowError ∧
  (∃ l, get_alert_history 1 0 store_first_acknowledged = inr l ∧
        length l = 2%nat ∧
        ∃ l', get_alert_history 24 0 store_first_acknowledged = inr l' ∧
              l ⊆ l') ∧
  get_alert_history 1 7200000000 store_first_acknowledged = inr [].
Proof.
  assert (Hnow : is_datetime 0) by (vm_compute; split; discriminate).
  split_and!; [done|..|reflexivity].
  - apply (proj1 (get_alert_history_spec 20000000 0 store_first_acknowledged
                    Hnow)).
    vm_compute. intros [Hmin _]. by apply Hmin.
  - destruct (proj1 (proj2 (get_alert_history_spec 1 0
                              store_first_acknowledged Hnow)))
      as (l & Hl & _).
    { vm_compute; split; discriminate. }
    exists l. split; [done|]. split.
    { vm_compute in Hl. by simplify_eq. }
    eexists. split; [reflexivity|].
    eapply (proj2 (proj2 (get_alert_history_spec 1 0 store_first_acknowledged
                            Hnow)) 24); [lia|done|reflexivity].
Defined.

Lemma written_alert_is_active_witness :
  ∃ a,
    filter (open_alert "cpu" Warning)
      (get_active_alerts
         (@check_metric_outcome repr_tenths "cpu" (80 # 1)%Q (THRESHOLDS cpu)
            true 5 store_after_75).2) = [a] ∧
    metric_value a = (80 # 1)%Q ∧ timestamp a = 5.
Proof.
  destruct (@written_alert_is_active repr_tenths "cpu" (80 # 1)%Q
              (THRESHOLDS cpu) true Warning 70 5 store_after_75
              store_after_75_reachable eq_refl)
    as (a & Hf & _ & Hv & Ht & _).
  by exists a.
Defined.

Lemma acknowledged_alert_leaves_active_witness :
  ∃ a,
    rows store_after_75_88 !! 0%nat = Some a ∧
    (length (get_active_alerts (acknowledge_alert (id a) store_after_75_88).2)
       + 1 = length (get_active_alerts store_after_75_88))%nat.
Proof.
  destruct (rows store_after_75_88 !! 0%nat) as [a|] eqn:Hi;
    [|by vm_compute in Hi].
  exists a. split; [done|].
  apply (@acknowledged_alert_leaves_active repr_tenths store_after_75_88 a
           store_after_75_88_reachable).
  apply (get_active_alerts_spec store_after_75_88).
  split; [by eapply list_elem_of_lookup_2|].
  vm_compute in Hi. by simplify_eq.
Defined.

Lemma active_alerts_bounded_witness :
  (length (get_active_alerts store_after_75_88) ≤ 8)%nat.
Proof.
  apply (@active_alerts_bounded repr_tenths store_after_75_88
           store_after_75_88_reachable).
Defined.

Lemma check_metric_returns_inserted_row_witness :
  (@check_metric repr_tenths "cpu" (80 # 1)%Q (THRESHOLDS cpu) true 5
     store_after_75).1 = None ∧
  ∃ a,
    (@check_metric repr_tenths "cpu" (75 # 1)%Q (THRESHOLDS cpu) true 5
       empty_store).1 = Some a ∧
    rows (@check_metric repr_tenths "cpu" (75 # 1)%Q (THRESHOLDS cpu) true 5
            empty_store).2 = [a].
Proof.
  split.
  - apply (proj2 (proj2 (@check_metric_returns_inserted_row repr_tenths "cpu"
                           (80 # 1)%Q (THRESHOLDS cpu) true 5 store_after_75))
             Warning 70); [reflexivity|by vm_compute].
  - destruct (@check_metric repr_tenths "cpu" (75 # 1)%Q (THRESHOLDS cpu) true 5
                empty_store).1 as [a|] eqn:Ha; [|by vm_compute in Ha].
    exists a. split; [done|].
    by destruct (proj1 (@check_metric_returns_inserted_row repr_tenths "cpu"
                          (75 # 1)%Q (THRESHOLDS cpu) true 5 empty_store)
                   a Ha) as [-> _].
Defined.

Lemma quiet_record_changes_nothing_witness :
  @check_and_create_alerts repr_tenths (reading (10 # 1)%Q) noon
    store_after_75_88 = ([], store_after_75_88) ∧
  ¬ quiet (reading (75 # 1)%Q).
Proof.
  split.
  - apply (proj2 (@quiet_record_changes_nothing repr_tenths
                    (reading (10 # 1)%Q) noon store_after_75_88)).
    by vm_compute.
  - intros Hq.
    apply (proj1 (@quiet_record_changes_nothing repr_tenths
                    (reading (75 # 1)%Q) noon empty_store)) in Hq.
    by vm_compute in Hq.
Defined.


Lemma uptime_consistent_witness :
  uptime (9000075 # 100) = mkUptime 1 1 0 90000 ∧
  0 ≤ uptime_hours (uptime (9000075 # 100)) < 24.
Proof.
  split; [reflexivity|].
  apply (uptime_consistent (9000075 # 100)). by vm_compute.
Defined.

Lemma battery_time_remaining_witness :
  ∃ b m,
    get_battery_metrics (Some sensed_low) = Some b ∧
    bm_time_remaining_mins b = Some m ∧ Z.even m = true ∧
    get_battery_metrics (Some (mk_sbattery (5 # 1)%Q (-2) (Some true)))
    = Some (mkBatteryMetrics (5 # 1)%Q (Some true) None).
Proof.
  destruct (battery_time_remaining sensed_low)
    as (b & Hb & _ & _ & _ & Hpos).
  destruct (Hpos eq_refl) as (m & Hm & _ & _ & Heven).
  exists b, m. split_and!; [done..| |].
  - by apply Heven.
  - destruct (battery_time_remaining
                (mk_sbattery (5 # 1)%Q (-2) (Some true)))
      as (b' & Hb' & Hp & Hplug & Hnone & _).
    rewrite Hb'. destruct b' as [p g t]. simpl in *.
    rewrite Hp, Hplug, Hnone; [done|lia].
Defined.

Lemma battery_from_sensor_to_alert_witness :
  (∃ o s,
     last (@check_and_create_alerts_outcomes repr_tenths laptop_on_battery noon
             empty_store).1 = Some (battery, o) ∧
     o ≠ NoChange ∧
     open_of "battery" s
       (@check_and_create_alerts_outcomes repr_tenths laptop_on_battery noon
          empty_store).2 ≠ []) ∧
  (@check_and_create_alerts_outcomes repr_tenths (reading (10 # 1)%Q) noon
     empty_store).1.*1 = [cpu; memory; disk].
Proof.
  split.
  - apply (proj1 (@battery_from_sensor_to_alert repr_tenths laptop_on_battery
                    noon empty_store) sensed_low
             (mkBatteryMetrics (5 # 1)%Q None (Some 2)));
      [reflexivity|reflexivity|done|by vm_compute].
  - by apply (proj2 (@battery_from_sensor_to_alert repr_tenths
                       (reading (10 # 1)%Q) noon empty_store)).
Defined.

Lemma top_processes_are_top_witness :
  ∃ x y,
    top_by_cpu (@get_top_processes (λ q, q) 2 three_processes) !! 0%nat
    = Some x ∧
    top_by_cpu (@get_top_processes (λ q, q) 2 three_processes) !! 1%nat
    = Some y ∧
    pid x = 7 ∧ pid y = 1 ∧ (cpu_percent y <= cpu_percent x)%Q ∧
    total_count (@get_top_processes (λ q, q) 2 three_processes) = 3%nat.
Proof.
  eexists _, _. split_and!; [reflexivity..| |reflexivity].
  eapply (proj1 (proj2 (proj2 (proj2
            (@top_processes_are_top (λ q, q) 2 three_processes))))
            0%nat 1%nat); [reflexivity..|lia].
Defined.
